(** * Registration form: validation rules, phone mask and submission lifecycle

    A shallow embedding of [src/components/RegistrationForm.tsx].

    JavaScript strings are sequences of UTF-16 code units; every string
    operation the component uses ([replace] with a character class, [slice],
    [trim], [includes], [length], regular expressions without the [u] flag)
    works code unit by code unit, so a string is a [list N] here.  The string
    checks of the zod schema are a list of checks run in order, as
    [z.string().trim().min(..)...] builds them.  The form controller is state
    passing in a small state-and-exception monad: React's setters and
    react-hook-form's [setValue]/[reset] write a store, the [fetch] call
    appends to a log of outbound requests. *)

From Stdlib Require Import String Ascii List NArith Arith Bool Lia.
Import ListNotations.

(** ** JavaScript strings *)

Module JS.

Definition code_unit := N.
Definition jsstring := list code_unit.

(** Code unit of an ASCII character, and of an ASCII literal. *)
Definition cu (a : ascii) : code_unit := N_of_ascii a.
Arguments cu a%_char.

Fixpoint lit (s : string) : jsstring :=
  match s with
  | EmptyString => []
  | String a s' => cu a :: lit s'
  end.

Arguments lit s%_string.

(** Character classes are predicates on code units. *)
Definition cclass := code_unit -> bool.

Definition range (lo hi : code_unit) : cclass :=
  fun c => (lo <=? c)%N && (c <=? hi)%N.

Definition chr (a : ascii) : cclass := fun c => (c =? cu a)%N.
Arguments chr a%_char.

Definition union (p q : cclass) : cclass := fun c => p c || q c.

Definition complement (p : cclass) : cclass := fun c => negb (p c).

(** [\d] is [[0-9]]; [\D] is its complement. *)
Definition digit : cclass := range (cu "0") (cu "9").
Definition nondigit : cclass := complement digit.

(** [\s], which is also what [String.prototype.trim] strips: WhiteSpace
    (TAB, VT, FF, SP, NBSP, ZWNBSP and the category Zs) and LineTerminator
    (LF, CR, LS, PS). *)
Definition white_space : cclass := fun c =>
  (range 9 13 c                     (* \t \n \v \f \r *)
   || (c =? 32)                     (* SP *)
   || (c =? 160)                    (* U+00A0 NBSP *)
   || (c =? 5760)                   (* U+1680 *)
   || range 8192 8202 c             (* U+2000 .. U+200A *)
   || (c =? 8232) || (c =? 8233)    (* U+2028 LS, U+2029 PS *)
   || (c =? 8239)                   (* U+202F *)
   || (c =? 8287)                   (* U+205F *)
   || (c =? 12288)                  (* U+3000 *)
   || (c =? 65279))%N.              (* U+FEFF *)

(** [s.replace(/[class]/g, "")]: every code unit of the class is replaced by
    the empty string, the others are kept. *)
Fixpoint replace_all_empty (p : cclass) (s : jsstring) : jsstring :=
  match s with
  | [] => []
  | c :: t => if p c then replace_all_empty p t else c :: replace_all_empty p t
  end.

(** [s.slice(start, end)] for non-negative arguments: both are clamped to the
    length, and an empty string results when [end <= start]. *)
Definition slice (s : jsstring) (start stop : nat) : jsstring :=
  let len := length s in
  let from := Nat.min start len in
  let to := Nat.min stop len in
  firstn (to - from) (skipn from s).

(** [s.slice(start)]. *)
Definition slice_from (s : jsstring) (start : nat) : jsstring :=
  slice s start (length s).

Fixpoint trimStart (s : jsstring) : jsstring :=
  match s with
  | [] => []
  | c :: t => if white_space c then trimStart t else s
  end.

Definition trimEnd (s : jsstring) : jsstring := rev (trimStart (rev s)).

Definition trim (s : jsstring) : jsstring := trimEnd (trimStart s).

Fixpoint startsWith (s p : jsstring) {struct p} : bool :=
  match p, s with
  | [], _ => true
  | _ :: _, [] => false
  | a :: p', b :: s' => (a =? b)%N && startsWith s' p'
  end.

(** [s.includes(p)]: [p] occurs at some position of [s]. *)
Fixpoint includes (s p : jsstring) : bool :=
  startsWith s p ||
  match s with
  | [] => false
  | _ :: t => includes t p
  end.

(** Regular expressions of the shape [^ a1 a2 ... an $] where every atom is
    a character class with a quantifier [{n}] (a bare class is [{1}]) or [+];
    both patterns of the schema have this shape.  No flags: the anchors are
    the ends of the input and matching is per code unit. *)
Inductive quantifier := Exactly (n : nat) | OneOrMore.

Definition regex := list (cclass * quantifier).

Fixpoint take_exactly (p : cclass) (n : nat) (s : jsstring) : option jsstring :=
  match n with
  | O => Some s
  | S n' =>
      match s with
      | [] => None
      | c :: t => if p c then take_exactly p n' t else None
      end
  end.

(** [r.test(s)]. A [+] atom takes one or more code units of its class and
    backtracks over how many. *)
Fixpoint test (r : regex) (s : jsstring) : bool :=
  match r with
  | [] => match s with [] => true | _ :: _ => false end
  | (p, Exactly n) :: r' =>
      match take_exactly p n s with
      | Some t => test r' t
      | None => false
      end
  | (p, OneOrMore) :: r' =>
      (fix more (u : jsstring) : bool :=
         match u with
         | [] => false
         | c :: t => p c && (test r' t || more t)
         end) s
  end.

End JS.
Import JS.

(** ** The zod string schemas *)

Module Zod.

(** A validation message, as displayed. *)
Definition message := string.

(** The checks [z.string()] accumulates, in call order. [trim] is one of
    them: it rewrites the data the later checks see. *)
Inductive check :=
| ck_trim
| ck_min (value : nat) (msg : message)
| ck_max (value : nat) (msg : message)
| ck_regex (r : regex) (msg : message)
| ck_email (msg : message).

Arguments ck_min value msg%_string.
Arguments ck_max value msg%_string.
Arguments ck_regex r msg%_string.
Arguments ck_email msg%_string.

(** What parsing returns: the parsed value with the issues raised on it, or
    nothing but issues when the input is not a string at all. *)
Inductive ParseReturn :=
| Parsed (value : jsstring) (issues : list message)
| Aborted (issues : list message).

Definition is_valid (r : ParseReturn) : bool :=
  match r with
  | Parsed _ [] => true
  | _ => false
  end.

Definition issues_of (r : ParseReturn) : list message :=
  match r with
  | Parsed _ i => i
  | Aborted i => i
  end.

Section Checks.

(** The pattern behind [.email()] belongs to the zod library, which is not
    part of the repository: it is a parameter of the schema. *)
Variable emailRegex : jsstring -> bool.

(** One pass over the checks: every check runs, a failing one adds its
    issue and parsing goes on. *)
Fixpoint run_checks (cs : list check) (data : jsstring) : jsstring * list message :=
  match cs with
  | [] => (data, [])
  | ck_trim :: cs' => run_checks cs' (trim data)
  | ck_min n msg :: cs' =>
      let '(v, i) := run_checks cs' data in
      (v, if length data <? n then msg :: i else i)
  | ck_max n msg :: cs' =>
      let '(v, i) := run_checks cs' data in
      (v, if n <? length data then msg :: i else i)
  | ck_regex r msg :: cs' =>
      let '(v, i) := run_checks cs' data in
      (v, if test r data then i else msg :: i)
  | ck_email msg :: cs' =>
      let '(v, i) := run_checks cs' data in
      (v, if emailRegex data then i else msg :: i)
  end.

(** [z.string()...]: an input that is not a string ([undefined], here
    [None]) aborts with the type issue. *)
Definition string_schema (cs : list check) (input : option jsstring) : ParseReturn :=
  match input with
  | None => Aborted ["Required"%string]
  | Some data => let '(v, i) := run_checks cs data in Parsed v i
  end.

(** [schema.refine(p, {message})]: the predicate sees the value the inner
    schema produced, unless that one aborted. *)
Definition refine (inner : option jsstring -> ParseReturn)
    (p : jsstring -> bool) (msg : message) (input : option jsstring) : ParseReturn :=
  match inner input with
  | Aborted i => Aborted i
  | Parsed v i => Parsed v (if p v then i else i ++ [msg])
  end.

End Checks.

Arguments refine inner p msg%_string input.

End Zod.
Import Zod.

(** ** The registration schema *)

(** [/^[a-zA-ZÀ-ÿ\s]+$/] (the source writes the two bounds of the
    third range as the characters U+00C0 and U+00FF themselves). *)
Definition name_class : cclass :=
  union (range (cu "a") (cu "z"))
    (union (range (cu "A") (cu "Z"))
       (union (range 192%N 255%N) white_space)).

Definition name_regex : regex := [(name_class, OneOrMore)].

(** [/^\(\d{2}\) \d{5}-\d{4}$/] *)
Definition celular_regex : regex :=
  [ (chr "(", Exactly 1); (digit, Exactly 2); (chr ")", Exactly 1);
    (chr " ", Exactly 1); (digit, Exactly 5); (chr "-", Exactly 1);
    (digit, Exactly 4) ].

Definition takeat_token : jsstring := lit ".takeat@".

Record RegistrationFormData := {
  nome : jsstring;
  sobrenome : jsstring;
  email : jsstring;
  celular : jsstring
}.

(** The form's values before validation: a field nobody has written yet is
    [undefined]. *)
Record FormValues := {
  v_nome : option jsstring;
  v_sobrenome : option jsstring;
  v_email : option jsstring;
  v_celular : option jsstring
}.

Inductive FieldName := f_nome | f_sobrenome | f_email | f_celular.

Section Schema.

Variable emailRegex : jsstring -> bool.

Definition schema_nome : option jsstring -> ParseReturn :=
  string_schema emailRegex
    [ ck_trim;
      ck_min 2 "Nome deve ter pelo menos 2 caracteres";
      ck_max 50 "Nome deve ter no máximo 50 caracteres";
      ck_regex name_regex "Nome deve conter apenas letras" ].

Definition schema_sobrenome : option jsstring -> ParseReturn :=
  string_schema emailRegex
    [ ck_trim;
      ck_min 2 "Sobrenome deve ter pelo menos 2 caracteres";
      ck_max 50 "Sobrenome deve ter no máximo 50 caracteres";
      ck_regex name_regex "Sobrenome deve conter apenas letras" ].

Definition schema_email : option jsstring -> ParseReturn :=
  refine
    (string_schema emailRegex [ ck_trim; ck_email "Email inválido" ])
    (fun email => includes email takeat_token)
    "Apenas emails com .takeat@ são aceitos (ex: arthur.takeat@gmail.com)".

Definition schema_celular : option jsstring -> ParseReturn :=
  string_schema emailRegex
    [ ck_regex celular_regex "Celular deve estar no formato (99) 99999-9999" ].

(** [registrationSchema], field by field. *)
Definition registrationSchema (f : FieldName) : option jsstring -> ParseReturn :=
  match f with
  | f_nome => schema_nome
  | f_sobrenome => schema_sobrenome
  | f_email => schema_email
  | f_celular => schema_celular
  end.

End Schema.

(** ** The form controller *)

Inductive SubmitStatus := idle | loading | success | error.

(** [formState.errors]: at most one message per field. *)
Record FieldErrors := {
  e_nome : option message;
  e_sobrenome : option message;
  e_email : option message;
  e_celular : option message
}.

(** What the component holds between events: the form library's values and
    errors, and the two [useState] cells. *)
Record Store := {
  values : FormValues;
  errors : FieldErrors;
  submitStatus : SubmitStatus;
  statusMessage : string
}.

(** The body of the outbound request, before [JSON.stringify]. *)
Record Payload := {
  payload_nome : jsstring;
  payload_sobrenome : jsstring;
  payload_email : jsstring;
  payload_celular : jsstring
}.

Record Request := {
  url : string;
  method : string;
  mode : string;
  content_type : string;
  body : Payload
}.

(** What the [fetch(...)] expression does when evaluated: it throws before
    any request leaves, or it returns a promise, which settles later one way
    or the other. *)
Inductive NetworkOutcome := Fulfilled | Rejected.

Inductive FetchResult :=
| FetchThrows
| FetchReturns (promise : NetworkOutcome).

(** The observable effects, oldest first. *)
Inductive Effect :=
| StatusSet (s : SubmitStatus)
| Dispatched (r : Request).

Record World := {
  store : Store;
  trace : list Effect
}.

(** State and exceptions: what was written before a [throw] stays written. *)
Inductive Completion (A : Type) :=
| Normal (a : A)
| Thrown.

Arguments Normal {A} a.
Arguments Thrown {A}.

Definition M (A : Type) := World -> Completion A * World.

Definition ret {A} (a : A) : M A := fun w => (Normal a, w).

Definition bind {A B} (m : M A) (k : A -> M B) : M B :=
  fun w =>
    match m w with
    | (Normal a, w') => k a w'
    | (Thrown, w') => (Thrown, w')
    end.

Definition throw {A} : M A := fun w => (Thrown, w).

Definition try_catch {A} (m : M A) (handler : M A) : M A :=
  fun w =>
    match m w with
    | (Normal a, w') => (Normal a, w')
    | (Thrown, w') => handler w'
    end.

Declare Scope form_scope.
Delimit Scope form_scope with form.
Notation "m ;; k" := (bind m (fun _ => k))
  (at level 61, right associativity) : form_scope.
Notation "x <- m ;; k" := (bind m (fun x => k))
  (at level 61, m at next level, right associativity) : form_scope.
Notation "'TRY' m 'CATCH' h" := (try_catch m h)
  (at level 62, m at level 61, h at level 61) : form_scope.

Definition exec {A} (m : M A) (w : World) : World := snd (m w).

Definition gets {A} (f : Store -> A) : M A := fun w => (Normal (f (store w)), w).

Definition modify (f : Store -> Store) : M unit :=
  fun w => (Normal tt, {| store := f (store w); trace := trace w |}).

Definition emit (e : Effect) : M unit :=
  fun w => (Normal tt, {| store := store w; trace := trace w ++ [e] |}).

Local Open Scope form_scope.

(** The two [useState] setters. *)
Definition setSubmitStatus (s : SubmitStatus) : M unit :=
  modify (fun st => {| values := values st; errors := errors st;
                       submitStatus := s; statusMessage := statusMessage st |}) ;;
  emit (StatusSet s).

Definition setStatusMessage (msg : string) : M unit :=
  modify (fun st => {| values := values st; errors := errors st;
                       submitStatus := submitStatus st; statusMessage := msg |}).

Arguments setStatusMessage msg%_string.

Definition get_value (f : FieldName) (v : FormValues) : option jsstring :=
  match f with
  | f_nome => v_nome v
  | f_sobrenome => v_sobrenome v
  | f_email => v_email v
  | f_celular => v_celular v
  end.

Definition set_value (f : FieldName) (x : option jsstring) (v : FormValues) : FormValues :=
  match f with
  | f_nome => {| v_nome := x; v_sobrenome := v_sobrenome v; v_email := v_email v; v_celular := v_celular v |}
  | f_sobrenome => {| v_nome := v_nome v; v_sobrenome := x; v_email := v_email v; v_celular := v_celular v |}
  | f_email => {| v_nome := v_nome v; v_sobrenome := v_sobrenome v; v_email := x; v_celular := v_celular v |}
  | f_celular => {| v_nome := v_nome v; v_sobrenome := v_sobrenome v; v_email := v_email v; v_celular := x |}
  end.

Definition get_error (f : FieldName) (e : FieldErrors) : option message :=
  match f with
  | f_nome => e_nome e
  | f_sobrenome => e_sobrenome e
  | f_email => e_email e
  | f_celular => e_celular e
  end.

Definition set_error (f : FieldName) (x : option message) (e : FieldErrors) : FieldErrors :=
  match f with
  | f_nome => {| e_nome := x; e_sobrenome := e_sobrenome e; e_email := e_email e; e_celular := e_celular e |}
  | f_sobrenome => {| e_nome := e_nome e; e_sobrenome := x; e_email := e_email e; e_celular := e_celular e |}
  | f_email => {| e_nome := e_nome e; e_sobrenome := e_sobrenome e; e_email := x; e_celular := e_celular e |}
  | f_celular => {| e_nome := e_nome e; e_sobrenome := e_sobrenome e; e_email := e_email e; e_celular := x |}
  end.

Definition no_values : FormValues :=
  {| v_nome := None; v_sobrenome := None; v_email := None; v_celular := None |}.

Definition no_errors : FieldErrors :=
  {| e_nome := None; e_sobrenome := None; e_email := None; e_celular := None |}.

(** The component as first rendered: [useState("idle")], [useState("")], and
    a form without default values. *)
Definition initial_store : Store :=
  {| values := no_values; errors := no_errors;
     submitStatus := idle; statusMessage := "" |}.

Definition initial_world : World := {| store := initial_store; trace := [] |}.

(** Phone mask function *)
Definition formatPhone (value : jsstring) : jsstring :=
  let numbers := replace_all_empty nondigit value in
  if length numbers <=? 2 then
    if negb (length numbers =? 0) then lit "(" ++ numbers else lit ""
  else if length numbers <=? 7 then
    lit "(" ++ slice numbers 0 2 ++ lit ") " ++ slice_from numbers 2
  else
    lit "(" ++ slice numbers 0 2 ++ lit ") " ++ slice numbers 2 7
      ++ lit "-" ++ slice numbers 7 11.

Definition webhook : string := "https://webhook.takeat.cloud/webhook/criar_aluno_frappe".

(** The arguments of the one [fetch] call: the fixed endpoint and options,
    and the payload as body. *)
Definition webhook_request (payload : Payload) : Request :=
  {| url := webhook; method := "POST"; mode := "no-cors";
     content_type := "application/json"; body := payload |}.

Section Controller.

Variable emailRegex : jsstring -> bool.

(** How the environment answers the [fetch(...)] expression. *)
Variable fetch_env : Request -> FetchResult.

(** The message a field's schema leaves on the field: the first issue. *)
Definition first_issue (r : ParseReturn) : option message :=
  match issues_of r with
  | [] => None
  | m :: _ => Some m
  end.

Definition validate_field (f : FieldName) (v : FormValues) : option message :=
  first_issue (registrationSchema emailRegex f (get_value f v)).

(** Modelled from the spec: the resolver of the form library
    ([zodResolver(registrationSchema)], not among the sources) runs the rule
    set on all four fields; it yields the validated values when every field
    passes and one message per failing field otherwise. *)
Definition resolver (v : FormValues) : RegistrationFormData + FieldErrors :=
  match registrationSchema emailRegex f_nome (v_nome v),
        registrationSchema emailRegex f_sobrenome (v_sobrenome v),
        registrationSchema emailRegex f_email (v_email v),
        registrationSchema emailRegex f_celular (v_celular v) with
  | Parsed n [], Parsed s [], Parsed e [], Parsed c [] =>
      inl {| nome := n; sobrenome := s; email := e; celular := c |}
  | rn, rs, re, rc =>
      inr {| e_nome := first_issue rn; e_sobrenome := first_issue rs;
             e_email := first_issue re; e_celular := first_issue rc |}
  end.

Definition set_errors (e : FieldErrors) : M unit :=
  modify (fun st => {| values := values st; errors := e;
                       submitStatus := submitStatus st;
                       statusMessage := statusMessage st |}).

(** Modelled from the spec: [setValue(name, value, { shouldValidate })] of
    the form library stores the value and, when asked to validate, runs the
    rule of that field and sets or clears its message. *)
Definition setValue (f : FieldName) (x : jsstring) (shouldValidate : bool) : M unit :=
  modify (fun st => {| values := set_value f (Some x) (values st); errors := errors st;
                       submitStatus := submitStatus st;
                       statusMessage := statusMessage st |}) ;;
  if shouldValidate then
    modify (fun st => {| values := values st;
                         errors := set_error f (validate_field f (values st)) (errors st);
                         submitStatus := submitStatus st;
                         statusMessage := statusMessage st |})
  else ret tt.

(** Modelled from the spec: [reset()] of the form library clears all field
    values (the form has no default values) and the field messages. *)
Definition reset : M unit :=
  modify (fun st => {| values := no_values; errors := no_errors;
                       submitStatus := submitStatus st;
                       statusMessage := statusMessage st |}).

(** [fetch(url, init)]: a call that returns has dispatched the request; the
    promise is dropped by the caller. *)
Definition fetch (r : Request) : M NetworkOutcome :=
  match fetch_env r with
  | FetchThrows => throw
  | FetchReturns promise => emit (Dispatched r) ;; ret promise
  end.

Definition handlePhoneChange (target_value : jsstring) : M unit :=
  let formatted := formatPhone target_value in
  setValue f_celular formatted true.

Definition onSubmit (data : RegistrationFormData) : M unit :=
  setSubmitStatus loading ;;
  setStatusMessage "" ;;
  (* Extract only numbers from phone *)
  let celularNumbers := replace_all_empty nondigit (celular data) in
  let payload :=
    {| payload_nome := nome data;
       payload_sobrenome := sobrenome data;
       payload_email := email data;
       payload_celular := celularNumbers |} in
  TRY
    (* Fire and forget *)
    (fetch (webhook_request payload) ;;
     (* always shows success once the request is fired *)
     setSubmitStatus success ;;
     setStatusMessage "Cadastro enviado com sucesso!" ;;
     reset)
  CATCH
    (setSubmitStatus error ;;
     setStatusMessage "Erro ao enviar. Tente novamente.").

(** Modelled from the spec: [handleSubmit(onValid)] of the form library
    runs the rule set on all fields; if any fails it surfaces the messages
    and does not call [onValid]; if all pass it calls [onValid] with the
    validated values. *)
Definition handleSubmit (onValid : RegistrationFormData -> M unit) : M unit :=
  v <- gets values ;;
  match resolver v with
  | inl data => set_errors no_errors ;; onValid data
  | inr errs => set_errors errs
  end.

(** Modelled from the spec: the change handler [register(name)] attaches to
    the three text inputs stores what was typed. *)
Definition register_onChange (f : FieldName) (target_value : jsstring) : M unit :=
  setValue f target_value false.

(** Modelled from the spec: on blur ([mode: "onBlur"]) the rule of that field
    runs; a failing field shows its message, a passing one clears it. *)
Definition register_onBlur (f : FieldName) : M unit :=
  modify (fun st => {| values := values st;
                       errors := set_error f (validate_field f (values st)) (errors st);
                       submitStatus := submitStatus st;
                       statusMessage := statusMessage st |}).

(** What the user can do to the rendered form. *)
Inductive UserEvent :=
| Type_nome (text : jsstring)
| Type_sobrenome (text : jsstring)
| Type_email (text : jsstring)
| Type_celular (text : jsstring)
| Blur (f : FieldName)
| Submit.

Definition is_edit (ev : UserEvent) : bool :=
  match ev with
  | Type_nome _ | Type_sobrenome _ | Type_email _ | Type_celular _ => true
  | Blur _ | Submit => false
  end.

(** The handlers the JSX wires to each input and to the form. *)
Definition handle (ev : UserEvent) : M unit :=
  match ev with
  | Type_nome text => register_onChange f_nome text
  | Type_sobrenome text => register_onChange f_sobrenome text
  | Type_email text => register_onChange f_email text
  | Type_celular text => handlePhoneChange text
  | Blur f => register_onBlur f
  | Submit => handleSubmit onSubmit
  end.

Fixpoint handle_all (evs : list UserEvent) : M unit :=
  match evs with
  | [] => ret tt
  | ev :: evs' => handle ev ;; handle_all evs'
  end.

End Controller.

(** The statuses written along a trace, oldest first, and the requests
    dispatched. *)
Fixpoint statuses (t : list Effect) : list SubmitStatus :=
  match t with
  | [] => []
  | StatusSet s :: t' => s :: statuses t'
  | Dispatched _ :: t' => statuses t'
  end.

Fixpoint dispatches (t : list Effect) : list Request :=
  match t with
  | [] => []
  | StatusSet _ :: t' => dispatches t'
  | Dispatched r :: t' => r :: dispatches t'
  end.

Definition is_terminal (s : SubmitStatus) : bool :=
  match s with
  | success | error => true
  | idle | loading => false
  end.

(** ** The rules in the words of the specification *)

Definition multiplication_sign : code_unit := 215%N.  (* U+00D7 *)
Definition division_sign : code_unit := 247%N.        (* U+00F7 *)

(** The letters among the code units the ranges of the name pattern name:
    a-z, A-Z and U+00C0..U+00FF without the two signs above, which that
    range also holds and which are not letters. *)
Definition is_letter : cclass := fun c =>
  range (cu "a") (cu "z") c
  || range (cu "A") (cu "Z") c
  || (range 192%N 255%N c
      && negb (c =? multiplication_sign)%N && negb (c =? division_sign)%N).

Definition letter_or_space : cclass := union is_letter white_space.

(** The three ranges of the name pattern that stand for letters. *)
Definition pattern_letter : cclass :=
  union (range (cu "a") (cu "z"))
    (union (range (cu "A") (cu "Z")) (range 192%N 255%N)).

(** The name rule as the specification words it, for whatever counts as a
    letter: trim, then a length between 2 and 50 and nothing but letters
    and spaces. *)
Definition name_rule_spec (letter : cclass) (x : jsstring) : bool :=
  let t := trim x in
  (2 <=? length t) && (length t <=? 50) && forallb (union letter white_space) t.

(** A notion of letter that includes what the pattern's ranges name, the
    two signs aside: the unaccented letters and the accented ones of
    U+00C0..U+00FF. It may hold any other letter besides. *)
Definition covers_pattern_letters (letter : cclass) : Prop :=
  forall c, pattern_letter c = true ->
            c <> multiplication_sign -> c <> division_sign -> letter c = true.

(** An input on which the pattern and the notion of letter can be compared:
    it holds neither of the two signs, and no letter that the pattern's
    ranges miss. *)
Definition within_pattern_letters (letter : cclass) (x : jsstring) : Prop :=
  ~ In multiplication_sign x
  /\ ~ In division_sign x
  /\ forall c, In c x -> letter c = true -> pattern_letter c = true.

(** A wider notion of letter: the letters above and those of Latin
    Extended-A and B (U+0100..U+024F). *)
Definition latin_letter : cclass := union is_letter (range 256%N 591%N).

Definition is_name_field (f : FieldName) : bool :=
  match f with
  | f_nome | f_sobrenome => true
  | f_email | f_celular => false
  end.

(** Whether a field's rule passes a text. *)
Definition passes (emailRegex : jsstring -> bool) (f : FieldName) (x : jsstring) : bool :=
  is_valid (registrationSchema emailRegex f (Some x)).

(** ** An instance of the email pattern

    The schema leaves the syntax of an address to zod. The recogniser below
    follows the pattern zod 3 ships: no leading dot and no two dots in a
    row; a local part of letters, digits and [_ ' + - .] that ends in a
    letter, a digit or one of [_ + -]; an at sign; one or more labels, each
    a letter or digit followed by letters, digits and hyphens, each closed
    by a dot; a top-level domain of two or more letters. It serves as a
    concrete value for the parameter. *)

Definition alpha : cclass := union (range (cu "a") (cu "z")) (range (cu "A") (cu "Z")).
Definition alnum : cclass := union alpha digit.

Definition local_class : cclass :=
  union alnum (union (chr "_") (union (chr "'") (union (chr "+") (union (chr "-") (chr "."))))).

Definition local_last_class : cclass :=
  union alnum (union (chr "_") (union (chr "+") (chr "-"))).

Definition domain_class : cclass := union alnum (chr "-").

(** The text before and after the first code unit of a class. *)
Fixpoint split_first (sep : cclass) (s : jsstring) : option (jsstring * jsstring) :=
  match s with
  | [] => None
  | c :: t =>
      if sep c then Some ([], t)
      else match split_first sep t with
           | Some (a, b) => Some (c :: a, b)
           | None => None
           end
  end.

(** The pieces between the code units of a class. *)
Fixpoint split_all (sep : cclass) (s : jsstring) : list jsstring :=
  match s with
  | [] => [[]]
  | c :: t =>
      match split_all sep t with
      | piece :: pieces => if sep c then [] :: piece :: pieces else (c :: piece) :: pieces
      | [] => [[]]
      end
  end.

Definition domain_label (l : jsstring) : bool :=
  match l with
  | [] => false
  | c :: t => alnum c && forallb domain_class t
  end.

Definition top_level_domain (l : jsstring) : bool :=
  (2 <=? length l) && forallb alpha l.

Definition zod_emailRegex (s : jsstring) : bool :=
  negb (startsWith s (lit ".")) && negb (includes s (lit ".."))
  && match split_first (chr "@") s with
     | None => false
     | Some (local, domain) =>
         match rev local with
         | [] => false
         | last :: init => local_last_class last && forallb local_class init
         end
         && match rev (split_all (chr ".") domain) with
            | tld :: label :: labels =>
                top_level_domain tld && forallb domain_label (label :: labels)
            | _ => false
            end
     end.

(** ** Sample environments and runs *)

(** The fetch call returns and the request is delivered. *)
Definition online : Request -> FetchResult := fun _ => FetchReturns Fulfilled.

(** The fetch call returns and the promise is rejected later. *)
Definition offline : Request -> FetchResult := fun _ => FetchReturns Rejected.

(** The fetch call itself throws. *)
Definition broken : Request -> FetchResult := fun _ => FetchThrows.

(** A user types the four values of the end-to-end scenario, the phone
    digit by digit through the mask. *)
Definition typing_valid : list UserEvent :=
  [ Type_nome (lit "Arthur"); Type_sobrenome (lit "Takeat");
    Type_email (lit "arthur.takeat@gmail.com"); Type_celular (lit "11987654321") ].

Definition typing_bad_email : list UserEvent :=
  [ Type_nome (lit "Arthur"); Type_sobrenome (lit "Takeat");
    Type_email (lit "arthur@gmail.com"); Type_celular (lit "11987654321") ].

Definition world_typed (env : Request -> FetchResult) (evs : list UserEvent) : World :=
  exec (handle_all zod_emailRegex env evs) initial_world.

Definition world_submitted (env : Request -> FetchResult) : World :=
  exec (handle zod_emailRegex env Submit) (world_typed env typing_valid).

(** ** What the component renders *)

Definition status_eqb (a b : SubmitStatus) : bool :=
  match a, b with
  | idle, idle | loading, loading | success, success | error, error => true
  | _, _ => false
  end.

(** [const celularValue = watch("celular") || ""]: an unset or empty value
    shows as the empty text. *)
Definition celularValue (st : Store) : jsstring :=
  match v_celular (values st) with
  | Some (c :: t) => c :: t
  | Some [] | None => lit ""
  end.

(** The phone input's [maxLength]. *)
Definition maxLength : nat := 15.

(** The two status messages above the form: each is rendered when the
    status equals its tag, with [statusMessage] as text. *)
Inductive Banner :=
| SuccessBanner (text : string)
| ErrorBanner (text : string).

Definition status_banners (st : Store) : list Banner :=
  (if status_eqb (submitStatus st) success then [SuccessBanner (statusMessage st)] else [])
  ++ (if status_eqb (submitStatus st) error then [ErrorBanner (statusMessage st)] else []).

(** The submit button: [disabled={submitStatus === "loading"}], and its
    label. *)
Definition submit_disabled (st : Store) : bool :=
  status_eqb (submitStatus st) loading.

Definition submit_label (st : Store) : string :=
  if status_eqb (submitStatus st) loading then "Enviando..." else "Criar Conta".

(** The mask's alphabet: digits and the four characters the mask adds. *)
Definition mask_class : cclass :=
  union digit (union (chr "(") (union (chr ")") (union (chr " ") (chr "-")))).

(** ** What holds of the states the component reaches *)

(** Between two events the status is not loading, and the message is the
    one written together with the status. *)
Definition settled (st : Store) : Prop :=
  match submitStatus st with
  | idle => statusMessage st = ""%string
  | loading => False
  | success => statusMessage st = "Cadastro enviado com sucesso!"%string
  | error => statusMessage st = "Erro ao enviar. Tente novamente."%string
  end.

(** The phone input shows a text the mask leaves as it is. *)
Definition celular_masked (st : Store) : Prop :=
  formatPhone (celularValue st) = celularValue st.

(** A request to the webhook whose payload went through the rules: names
    and address pass theirs, the phone is 11 digits. *)
Definition validated_request (emailRegex : jsstring -> bool) (r : Request) : Prop :=
  url r = webhook
  /\ passes emailRegex f_nome (payload_nome (body r)) = true
  /\ passes emailRegex f_sobrenome (payload_sobrenome (body r)) = true
  /\ passes emailRegex f_email (payload_email (body r)) = true
  /\ length (payload_celular (body r)) = 11
  /\ forallb digit (payload_celular (body r)) = true.

(** How many times success was written along a trace. *)
Definition successes (t : list Effect) : nat :=
  length (filter (fun s => status_eqb s success) (statuses t)).

Definition invariant (emailRegex : jsstring -> bool) (w : World) : Prop :=
  settled (store w)
  /\ celular_masked (store w)
  /\ Forall (validated_request emailRegex) (dispatches (trace w))
  /\ length (dispatches (trace w)) = successes (trace w).

(** * Properties *)

(** ** Strings *)

Section StringFacts.

Lemma replace_all_empty_filter (p : cclass) (s : jsstring) :
  replace_all_empty (complement p) s = filter p s.
Proof.
  induction s as [|c t IH]; simpl; [reflexivity|].
  unfold complement at 1. destruct (p c); simpl; now rewrite IH.
Qed.

Lemma slice_firstn_skipn (s : jsstring) (a b : nat) :
  slice s a b = firstn (b - a) (skipn a s).
Proof.
  unfold slice.
  destruct (Nat.le_gt_cases (length s) a) as [Hge|Hlt].
  - rewrite (Nat.min_r a) by exact Hge.
    rewrite !skipn_all2 by lia. now rewrite !firstn_nil.
  - rewrite (Nat.min_l a) by lia.
    destruct (Nat.le_gt_cases b (length s)) as [Hb|Hb].
    + now rewrite Nat.min_l by exact Hb.
    + rewrite Nat.min_r by lia.
      rewrite !firstn_all2; try reflexivity; rewrite length_skipn; lia.
Qed.

Lemma slice_from_skipn (s : jsstring) (a : nat) : slice_from s a = skipn a s.
Proof.
  unfold slice_from. rewrite slice_firstn_skipn.
  apply firstn_all2. rewrite length_skipn. lia.
Qed.

Lemma filter_all (p : cclass) (s : jsstring) :
  forallb p s = true -> filter p s = s.
Proof.
  induction s as [|c t IH]; simpl; [reflexivity|].
  intros H. apply andb_prop in H as [Hc Ht]. rewrite Hc. now rewrite IH.
Qed.

Lemma forallb_filter_self (p : cclass) (s : jsstring) :
  forallb p (filter p s) = true.
Proof.
  induction s as [|c t IH]; simpl; [reflexivity|].
  destruct (p c) eqn:E; simpl; [now rewrite E|exact IH].
Qed.

Lemma forallb_firstn (p : cclass) (n : nat) (s : jsstring) :
  forallb p s = true -> forallb p (firstn n s) = true.
Proof.
  revert s; induction n as [|n IH]; intros [|c t]; simpl; try reflexivity.
  intros H. apply andb_prop in H as [Hc Ht]. now rewrite Hc, IH.
Qed.

Lemma forallb_skipn (p : cclass) (n : nat) (s : jsstring) :
  forallb p s = true -> forallb p (skipn n s) = true.
Proof.
  revert s; induction n as [|n IH]; intros [|c t]; simpl; try reflexivity.
  - now intros H.
  - intros H. apply andb_prop in H as [_ Ht]. now apply IH.
Qed.

Lemma firstn_app_skipn (n m : nat) (s : jsstring) :
  firstn n s ++ firstn m (skipn n s) = firstn (n + m) s.
Proof.
  revert s; induction n as [|n IH]; intros s; simpl; [reflexivity|].
  destruct s as [|c t]; simpl; [now rewrite firstn_nil|]. now rewrite IH.
Qed.

End StringFacts.

(** ** The phone mask *)

Section PhoneMask.

#[local] Arguments firstn : simpl never.
#[local] Arguments skipn : simpl never.

(** The mask in terms of the digits of the input. *)
Lemma formatPhone_unfold (x : jsstring) :
  let d := filter digit x in
  formatPhone x =
    if length d <=? 2 then
      if negb (length d =? 0) then lit "(" ++ d else []
    else if length d <=? 7 then
      lit "(" ++ firstn 2 d ++ lit ") " ++ skipn 2 d
    else
      lit "(" ++ firstn 2 d ++ lit ") " ++ firstn 5 (skipn 2 d)
        ++ lit "-" ++ firstn 4 (skipn 7 d).
Proof.
  unfold formatPhone, nondigit. rewrite replace_all_empty_filter.
  cbv zeta. rewrite !slice_firstn_skipn, slice_from_skipn. reflexivity.
Qed.

Lemma formatPhone_of_digits (x : jsstring) :
  formatPhone x = formatPhone (filter digit x).
Proof.
  rewrite (formatPhone_unfold x), (formatPhone_unfold (filter digit x)).
  cbv zeta. now rewrite (filter_all digit (filter digit x)) by apply forallb_filter_self.
Qed.

Lemma digits_of_formatPhone (x : jsstring) :
  filter digit (formatPhone x) = firstn 11 (filter digit x).
Proof.
  rewrite formatPhone_unfold. cbv zeta.
  pose proof (forallb_filter_self digit x) as Hd.
  set (d := filter digit x) in *.
  destruct (length d <=? 2) eqn:E2.
  - apply Nat.leb_le in E2.
    destruct (length d =? 0) eqn:E0; simpl.
    + apply Nat.eqb_eq in E0. destruct d; [reflexivity|discriminate].
    + rewrite filter_all by exact Hd. symmetry. apply firstn_all2. lia.
  - apply Nat.leb_gt in E2.
    destruct (length d <=? 7) eqn:E7.
    + apply Nat.leb_le in E7.
      rewrite !filter_app. simpl (filter digit (lit _)).
      rewrite !filter_all by (try apply forallb_firstn; try apply forallb_skipn; exact Hd).
      simpl. rewrite firstn_skipn. symmetry. apply firstn_all2. lia.
    + rewrite !filter_app. simpl (filter digit (lit _)).
      rewrite !filter_all
        by (try apply forallb_firstn; try apply forallb_skipn; exact Hd).
      simpl.
      change 11 with (2 + 9). rewrite <- firstn_app_skipn. f_equal.
      change 9 with (5 + 4). rewrite <- firstn_app_skipn. f_equal.
      now rewrite skipn_skipn.
Qed.

Lemma formatPhone_firstn11 (d : jsstring) :
  forallb digit d = true -> formatPhone (firstn 11 d) = formatPhone d.
Proof.
  intros Hd.
  destruct (Nat.le_gt_cases (length d) 11) as [H|H].
  - now rewrite firstn_all2.
  - rewrite (formatPhone_unfold (firstn 11 d)), (formatPhone_unfold d). cbv zeta.
    rewrite (filter_all digit (firstn 11 d)) by now apply forallb_firstn.
    rewrite (filter_all digit d) by exact Hd.
    rewrite length_firstn, (Nat.min_l 11) by lia.
    replace (length d <=? 2) with false by (symmetry; apply Nat.leb_gt; lia).
    replace (length d <=? 7) with false by (symmetry; apply Nat.leb_gt; lia).
    simpl (11 <=? _).
    rewrite firstn_firstn, !skipn_firstn_comm, !firstn_firstn.
    reflexivity.
Qed.

Lemma formatPhone_full (x : jsstring) d0 d1 d2 d3 d4 d5 d6 d7 d8 d9 d10 rest :
  filter digit x = d0 :: d1 :: d2 :: d3 :: d4 :: d5 :: d6 :: d7 :: d8 :: d9 :: d10 :: rest ->
  formatPhone x =
    [cu "("; d0; d1; cu ")"; cu " "; d2; d3; d4; d5; d6; cu "-"; d7; d8; d9; d10].
Proof.
  intros E. rewrite formatPhone_unfold. cbv zeta. rewrite E. reflexivity.
Qed.

Lemma length_formatPhone (x : jsstring) :
  length (formatPhone x) = 15 -> 11 <= length (filter digit x).
Proof.
  rewrite formatPhone_unfold. cbv zeta.
  generalize (filter digit x) as d. intros d.
  destruct (length d <=? 2) eqn:E2.
  - apply Nat.leb_le in E2. destruct (negb (length d =? 0));
      [rewrite length_app|]; simpl; intros; lia.
  - destruct (length d <=? 7) eqn:E7.
    + apply Nat.leb_le in E7.
      rewrite !length_app, length_firstn, length_skipn. cbn [length lit]. intros; lia.
    + apply Nat.leb_gt in E7.
      rewrite !length_app, !length_firstn, !length_skipn. cbn [length lit]. intros; lia.
Qed.

Lemma take_exactly_length (p : cclass) (n : nat) (s t : jsstring) :
  take_exactly p n s = Some t -> length s = n + length t.
Proof.
  revert s; induction n as [|n IH]; intros s; simpl.
  - now intros [= ->].
  - destruct s as [|c s']; [discriminate|].
    destruct (p c); [|discriminate].
    intros H. apply IH in H. simpl. lia.
Qed.

Lemma celular_regex_length (s : jsstring) :
  test celular_regex s = true -> length s = 15.
Proof.
  unfold celular_regex. cbn [test].
  repeat (let E := fresh "E" in
          destruct (take_exactly _ _ _) as [?t|] eqn:E at 1;
          [apply take_exactly_length in E|discriminate]).
  destruct t5; [|discriminate]. simpl in *. lia.
Qed.

Lemma celular_regex_shape d0 d1 d2 d3 d4 d5 d6 d7 d8 d9 d10 :
  forallb digit [d0; d1; d2; d3; d4; d5; d6; d7; d8; d9; d10] = true ->
  test celular_regex
    [cu "("; d0; d1; cu ")"; cu " "; d2; d3; d4; d5; d6; cu "-"; d7; d8; d9; d10] = true.
Proof.
  cbn [forallb]. intros H.
  repeat (apply andb_prop in H as [?Hd H]).
  unfold celular_regex.
  repeat (cbn [test take_exactly];
          match goal with
          | Hc : digit ?c = true |- context [digit ?c] => rewrite Hc
          | |- context [chr ?a (cu ?a)] => change (chr a (cu a)) with true
          end).
  reflexivity.
Qed.

End PhoneMask.

Section PhoneMaskClaims.

#[local] Arguments firstn : simpl never.
#[local] Arguments skipn : simpl never.

(** C1. The phone mask first strips every code unit that is not a digit;
    with [d] the digits left, it returns the empty string when there is
    none, an open parenthesis followed by [d] for 1-2 digits, the first two
    digits in parentheses, a space and the remaining digits for 3-7 digits,
    and from 8 digits on the pattern (DD) DDDDD-DDDD filled with the digits
    up to the 11th, the pattern being complete from 11 digits on; digits
    beyond the 11th are dropped, and the input 11987654321999 gives
    (11) 98765-4321. *)
Theorem formatPhone_cases (x : jsstring) :
  let d := filter digit x in
  (length d = 0 -> formatPhone x = lit "")
  /\ (1 <= length d <= 2 -> formatPhone x = lit "(" ++ d)
  /\ (3 <= length d <= 7 ->
      formatPhone x = lit "(" ++ firstn 2 d ++ lit ") " ++ skipn 2 d)
  /\ (8 <= length d ->
      formatPhone x =
        lit "(" ++ firstn 2 d ++ lit ") " ++ firstn 5 (skipn 2 d)
          ++ lit "-" ++ firstn 4 (skipn 7 d))
  /\ (forall d0 d1 d2 d3 d4 d5 d6 d7 d8 d9 d10 rest,
      d = d0 :: d1 :: d2 :: d3 :: d4 :: d5 :: d6 :: d7 :: d8 :: d9 :: d10 :: rest ->
      formatPhone x =
        [cu "("; d0; d1; cu ")"; cu " "; d2; d3; d4; d5; d6; cu "-"; d7; d8; d9; d10])
  /\ formatPhone (lit "11987654321999") = lit "(11) 98765-4321".
Proof.
  intros d. pose proof (formatPhone_unfold x) as U. cbv zeta in U. fold d in U.
  repeat split.
  - intros H. rewrite U, H. reflexivity.
  - intros [H1 H2]. rewrite U.
    replace (length d <=? 2) with true by (symmetry; apply Nat.leb_le; lia).
    replace (length d =? 0) with false by (symmetry; apply Nat.eqb_neq; lia).
    reflexivity.
  - intros [H1 H2]. rewrite U.
    replace (length d <=? 2) with false by (symmetry; apply Nat.leb_gt; lia).
    replace (length d <=? 7) with true by (symmetry; apply Nat.leb_le; lia).
    reflexivity.
  - intros H. rewrite U.
    replace (length d <=? 2) with false by (symmetry; apply Nat.leb_gt; lia).
    replace (length d <=? 7) with false by (symmetry; apply Nat.leb_gt; lia).
    reflexivity.
  - intros * E. now apply formatPhone_full with (rest := rest).
Qed.

(** C2. The phone mask is idempotent. *)
Theorem formatPhone_idempotent (x : jsstring) :
  formatPhone (formatPhone x) = formatPhone x.
Proof.
  rewrite (formatPhone_of_digits (formatPhone x)), digits_of_formatPhone.
  rewrite formatPhone_firstn11 by apply forallb_filter_self.
  symmetry. apply formatPhone_of_digits.
Qed.

(** C10. The output of the phone mask satisfies the phone pattern exactly
    when the input holds at least 11 digits, and so does the phone rule of
    the schema on a value produced by the mask. *)
Theorem formatPhone_valid_iff_11_digits (emailRegex : jsstring -> bool) (x : jsstring) :
  (test celular_regex (formatPhone x) = true <-> 11 <= length (filter digit x))
  /\ (is_valid (schema_celular emailRegex (Some (formatPhone x))) = true
      <-> 11 <= length (filter digit x)).
Proof.
  assert (T : test celular_regex (formatPhone x) = true <-> 11 <= length (filter digit x)).
  { split.
    - intros H. apply length_formatPhone. now apply celular_regex_length.
    - intros H. pose proof (forallb_filter_self digit x) as Hd.
      destruct (filter digit x)
        as [|d0 [|d1 [|d2 [|d3 [|d4 [|d5 [|d6 [|d7 [|d8 [|d9 [|d10 rest]]]]]]]]]]] eqn:E;
        simpl in H; try lia.
      rewrite (formatPhone_full x _ _ _ _ _ _ _ _ _ _ _ _ E). apply celular_regex_shape.
      cbn [forallb] in *.
      repeat (apply andb_prop in Hd as [?Hc Hd]).
      now rewrite Hc, Hc0, Hc1, Hc2, Hc3, Hc4, Hc5, Hc6, Hc7, Hc8, Hc9. }
  split; [exact T|].
  rewrite <- T. unfold schema_celular, string_schema. cbn [run_checks].
  destruct (test celular_regex (formatPhone x)); simpl; split; congruence.
Qed.

End PhoneMaskClaims.

(** ** Trimming and searching *)

Section TrimFacts.

Lemma trimStart_split (s : jsstring) :
  exists pre, s = pre ++ trimStart s /\ forallb white_space pre = true.
Proof.
  induction s as [|c t [pre [E W]]]; simpl.
  - now exists [].
  - destruct (white_space c) eqn:Hc.
    + exists (c :: pre). simpl. rewrite Hc, W. split; [now f_equal|reflexivity].
    + now exists [].
Qed.

Lemma trimEnd_split (s : jsstring) :
  exists post, s = trimEnd s ++ post /\ forallb white_space post = true.
Proof.
  destruct (trimStart_split (rev s)) as [pre [E W]].
  exists (rev pre). split.
  - unfold trimEnd. rewrite <- rev_app_distr, <- E. now rewrite rev_involutive.
  - rewrite forallb_forall in *. intros c Hc. apply W. now apply in_rev.
Qed.

Lemma trim_split (s : jsstring) :
  exists pre post,
    s = pre ++ trim s ++ post
    /\ forallb white_space pre = true /\ forallb white_space post = true.
Proof.
  destruct (trimStart_split s) as [pre [E W]].
  destruct (trimEnd_split (trimStart s)) as [post [E' W']].
  exists pre, post. unfold trim. now rewrite <- E', <- E.
Qed.

Lemma length_trim (s : jsstring) : length (trim s) <= length s.
Proof.
  destruct (trim_split s) as [pre [post [E _]]].
  rewrite E at 2. rewrite !length_app. lia.
Qed.

Lemma in_trim (s : jsstring) (c : code_unit) : In c (trim s) -> In c s.
Proof.
  destruct (trim_split s) as [pre [post [E _]]].
  intros H. rewrite E, !in_app_iff. tauto.
Qed.

Lemma in_trim_inv (s : jsstring) (c : code_unit) :
  In c s -> white_space c = false -> In c (trim s).
Proof.
  destruct (trim_split s) as [pre [post [E [W W']]]].
  intros H Hc. rewrite E, !in_app_iff in H.
  rewrite forallb_forall in W, W'.
  destruct H as [H|[H|H]]; [apply W in H; congruence|exact H|apply W' in H; congruence].
Qed.

Lemma forallb_trim (p : cclass) (s : jsstring) :
  forallb p s = true -> forallb p (trim s) = true.
Proof.
  rewrite !forallb_forall. intros H c Hc. apply H. now apply in_trim.
Qed.

Lemma startsWith_spec (s p : jsstring) :
  startsWith s p = true <-> exists b, s = p ++ b.
Proof.
  revert s; induction p as [|a p IH]; intros s; simpl.
  - split; [now exists s|reflexivity].
  - destruct s as [|c s'].
    + split; [discriminate|intros [b E]; discriminate].
    + rewrite andb_true_iff, N.eqb_eq, IH. split.
      * intros [-> [b ->]]. now exists b.
      * intros [b E]. injection E as -> ->. split; [reflexivity|now exists b].
Qed.

(** [includes] finds exactly the substrings. *)
Lemma includes_spec (s p : jsstring) :
  includes s p = true <-> exists a b, s = a ++ p ++ b.
Proof.
  induction s as [|c t IH].
  - cbn [includes]. rewrite orb_false_r, startsWith_spec. split.
    + intros [b E]. now exists [], b.
    + intros [a [b E]]. destruct a; [now exists b|discriminate].
  - cbn [includes]. rewrite orb_true_iff, startsWith_spec, IH. split.
    + intros [[b E]|[a [b E]]].
      * now exists [], b.
      * exists (c :: a), b. simpl. now rewrite E.
    + intros [a [b E]]. destruct a as [|c' a].
      * left. now exists b.
      * right. injection E as -> E. now exists a, b.
Qed.

End TrimFacts.

(** ** The name rules *)

Section NameRules.

Lemma test_one_or_more (p : cclass) (s : jsstring) :
  test [(p, OneOrMore)] s = match s with [] => false | _ :: _ => forallb p s end.
Proof.
  induction s as [|c t IH]; [reflexivity|].
  cbn [test] in *. destruct t as [|c' t']; [reflexivity|].
  rewrite IH. reflexivity.
Qed.

(** The three checks behind a name field, on the trimmed text. *)
Lemma passes_name (emailRegex : jsstring -> bool) (f : FieldName) (x : jsstring) :
  is_name_field f = true ->
  passes emailRegex f x =
    negb (length (trim x) <? 2) && negb (50 <? length (trim x))
    && test name_regex (trim x).
Proof.
  intros Hf. unfold passes.
  destruct f; try discriminate;
    unfold registrationSchema, schema_nome, schema_sobrenome, string_schema;
    cbn [run_checks is_valid];
    destruct (length (trim x) <? 2), (50 <? length (trim x)), (test name_regex (trim x));
    reflexivity.
Qed.

Lemma name_class_pattern_letter (c : code_unit) :
  name_class c = pattern_letter c || white_space c.
Proof.
  unfold name_class, pattern_letter, union. now rewrite !orb_assoc.
Qed.

Lemma forallb_ext_in (p q : cclass) (s : jsstring) :
  (forall c, In c s -> p c = q c) -> forallb p s = forallb q s.
Proof.
  induction s as [|c t IH]; [reflexivity|].
  intros H. cbn [forallb]. rewrite (H c (or_introl eq_refl)).
  f_equal. apply IH. intros d Hd. apply H. now right.
Qed.

(** Where the input holds neither sign and no letter outside the pattern's
    ranges, the class of the pattern is "letter or whitespace". *)
Lemma name_class_agrees (letter : cclass) (x : jsstring) (c : code_unit) :
  covers_pattern_letters letter -> within_pattern_letters letter x ->
  In c x -> name_class c = union letter white_space c.
Proof.
  intros Hcov (Hm & Hd & Hout) Hc.
  rewrite name_class_pattern_letter. unfold union.
  destruct (white_space c); [now rewrite !orb_true_r|].
  rewrite !orb_false_r.
  destruct (pattern_letter c) eqn:P, (letter c) eqn:L; try reflexivity.
  - rewrite <- L. symmetry. apply Hcov; [exact P| |]; intros ->; contradiction.
  - rewrite <- P. now apply Hout.
Qed.

Lemma latin_letter_covers : covers_pattern_letters latin_letter.
Proof.
  intros c P Hm Hd. unfold latin_letter, is_letter, union.
  unfold pattern_letter, union in P.
  destruct (range (cu "a") (cu "z") c); [reflexivity|].
  destruct (range (cu "A") (cu "Z") c); [reflexivity|].
  cbn [orb] in *. rewrite P.
  destruct (N.eqb_spec c multiplication_sign); [contradiction|].
  destruct (N.eqb_spec c division_sign); [contradiction|].
  reflexivity.
Qed.

End NameRules.

Section RuleClaims.

Variable emailRegex : jsstring -> bool.

(** Any code unit outside the class of the name pattern makes a name rule
    fail, wherever it stands and whatever the length. *)
Lemma name_rule_rejects_outside_class (f : FieldName) (x : jsstring) (c : code_unit) :
  is_name_field f = true -> In c x -> name_class c = false ->
  passes emailRegex f x = false.
Proof.
  intros Hf Hin Hc. rewrite (passes_name emailRegex) by exact Hf.
  assert (W : white_space c = false).
  { unfold name_class, union in Hc. do 3 (apply orb_false_elim in Hc as [_ Hc]). exact Hc. }
  apply (in_trim_inv _ _ Hin) in W.
  unfold name_regex. rewrite test_one_or_more.
  destruct (trim x) as [|c' t] eqn:E; [now rewrite !andb_false_r|].
  replace (forallb name_class (c' :: t)) with false; [now rewrite !andb_false_r|].
  symmetry. apply not_true_is_false. rewrite forallb_forall. intros H.
  specialize (H c W). congruence.
Qed.

(** A digit anywhere makes a name rule fail. *)
Lemma name_rule_rejects_digit (f : FieldName) (x : jsstring) (c : code_unit) :
  is_name_field f = true -> In c x -> digit c = true ->
  passes emailRegex f x = false.
Proof.
  intros Hf Hin Hd. apply (name_rule_rejects_outside_class f x c Hf Hin).
  unfold digit, range in Hd. apply andb_prop in Hd as [H1 H2].
  apply N.leb_le in H1, H2. change (cu "0") with 48%N in H1. change (cu "9") with 57%N in H2.
  unfold name_class, union, white_space, range.
  change (cu "a") with 97%N. change (cu "z") with 122%N.
  change (cu "A") with 65%N. change (cu "Z") with 90%N.
  repeat match goal with
         | |- context [(?a <=? ?b)%N] => destruct (N.leb_spec a b); try lia
         | |- context [(?a =? ?b)%N] => destruct (N.eqb_spec a b); try lia
         end; try reflexivity.
Qed.

(** C3 (amended). Let a letter be whatever one counts as such, the
    unaccented letters and the accented ones of U+00C0..U+00FF among them.
    On an input that holds neither the multiplication nor the division sign
    (U+00D7, U+00F7) and no letter outside a-z, A-Z and U+00C0..U+00FF, a
    name rule passes exactly when the trimmed input has a length between 2
    and 50 and holds only letters and whitespace. In particular such an
    input of only letters and whitespace whose trimmed length is between 2
    and 50 is accepted; and any input of raw length 0 or 1, and any input
    whose trimmed length is 51 or more, is rejected. *)
Theorem name_rule_on_pattern_letters (letter : cclass) (f : FieldName) (x : jsstring) :
  is_name_field f = true ->
  covers_pattern_letters letter ->
  (within_pattern_letters letter x ->
   passes emailRegex f x = name_rule_spec letter x)
  /\ (within_pattern_letters letter x ->
      forallb (union letter white_space) x = true ->
      2 <= length (trim x) <= 50 ->
      passes emailRegex f x = true)
  /\ (length x <= 1 -> passes emailRegex f x = false)
  /\ (51 <= length (trim x) -> passes emailRegex f x = false).
Proof.
  intros Hf Hcov. rewrite (passes_name emailRegex) by exact Hf.
  unfold name_regex. rewrite test_one_or_more.
  pose proof (length_trim x) as Hlen.
  assert (Hcls : within_pattern_letters letter x ->
                 forallb name_class (trim x)
                 = forallb (union letter white_space) (trim x)).
  { intros Hin. apply forallb_ext_in. intros c Hc.
    apply (name_class_agrees letter x c Hcov Hin). now apply in_trim. }
  repeat split.
  - intros Hin. unfold name_rule_spec. cbv zeta. rewrite <- (Hcls Hin).
    destruct (trim x) as [|c t] eqn:E; [reflexivity|].
    rewrite !Nat.ltb_antisym, !negb_involutive.
    reflexivity.
  - intros Hin Hall [Hlo Hhi].
    apply forallb_trim in Hall. rewrite <- (Hcls Hin) in Hall.
    destruct (trim x) as [|c t] eqn:E; [simpl in Hlo; lia|].
    rewrite Hall, andb_true_r.
    replace (length (c :: t) <? 2) with false by (symmetry; apply Nat.ltb_ge; lia).
    replace (50 <? length (c :: t)) with false by (symmetry; apply Nat.ltb_ge; lia).
    reflexivity.
  - intros H.
    replace (length (trim x) <? 2) with true by (symmetry; apply Nat.ltb_lt; lia).
    reflexivity.
  - intros H.
    replace (50 <? length (trim x)) with true by (symmetry; apply Nat.ltb_lt; lia).
    now rewrite andb_false_r.
Qed.

(** What the amended C3 leaves out: a name of letters only, one of them
    outside the pattern's ranges (U+0160, then a-acute, r, k, a), is
    rejected by both name rules. *)
Lemma name_rule_rejects_letter_outside_ranges :
  let x := [352%N; 225%N; cu "r"; cu "k"; cu "a"] in
  forallb latin_letter x = true
  /\ pattern_letter 352%N = false
  /\ passes emailRegex f_nome x = false
  /\ passes emailRegex f_sobrenome x = false.
Proof. cbv zeta. repeat split. Qed.

(** C9. The name pattern lets the multiplication sign through, a symbol
    that is neither a letter, a space nor a digit: the text a, U+00D7, b
    passes both name rules. *)
Theorem name_rule_accepts_multiplication_sign :
  let x := [cu "a"; multiplication_sign; cu "b"] in
  is_letter multiplication_sign = false
  /\ white_space multiplication_sign = false
  /\ digit multiplication_sign = false
  /\ passes emailRegex f_nome x = true
  /\ passes emailRegex f_sobrenome x = true.
Proof. cbv zeta. repeat split. Qed.

(** C4. The email rule passes exactly when the trimmed input satisfies the
    email pattern and contains the token .takeat@; foo@gmail.com is
    rejected whatever the pattern says, and foo.takeat@gmail.com is accepted
    as soon as the pattern accepts it, which zod's does. *)
Theorem email_rule (x : jsstring) :
  (passes emailRegex f_email x = true <->
   emailRegex (trim x) = true /\ exists a b, trim x = a ++ lit ".takeat@" ++ b)
  /\ passes emailRegex f_email (lit "foo@gmail.com") = false
  /\ passes emailRegex f_email (lit "foo.takeat@gmail.com")
     = emailRegex (lit "foo.takeat@gmail.com")
  /\ passes zod_emailRegex f_email (lit "foo.takeat@gmail.com") = true.
Proof.
  repeat split.
  - unfold passes, registrationSchema, schema_email, refine, string_schema in H.
    cbn [run_checks] in H.
    destruct (emailRegex (trim x)); [reflexivity|].
    destruct (includes (trim x) takeat_token); discriminate.
  - apply includes_spec. fold takeat_token.
    unfold passes, registrationSchema, schema_email, refine, string_schema in H.
    cbn [run_checks] in H.
    destruct (includes (trim x) takeat_token); [reflexivity|].
    destruct (emailRegex (trim x)); discriminate.
  - intros [He Hi]. apply includes_spec in Hi.
    unfold passes, registrationSchema, schema_email, refine, string_schema.
    cbn [run_checks]. fold takeat_token in Hi. now rewrite He, Hi.
  - unfold passes, registrationSchema, schema_email, refine, string_schema.
    cbn [run_checks].
    change (includes (trim (lit "foo@gmail.com")) takeat_token) with false.
    cbv iota. now destruct (emailRegex _).
  - unfold passes, registrationSchema, schema_email, refine, string_schema.
    cbn [run_checks].
    change (trim (lit "foo.takeat@gmail.com")) with (lit "foo.takeat@gmail.com").
    change (includes (lit "foo.takeat@gmail.com") takeat_token) with true.
    cbv iota. now destruct (emailRegex _).
Qed.

End RuleClaims.

Lemma arthur_within_pattern_letters :
  within_pattern_letters latin_letter (lit "Arthur").
Proof.
  unfold within_pattern_letters. cbn [lit In]. repeat split.
  - intros H. repeat (destruct H as [H|H]; [discriminate H|]). exact H.
  - intros H. repeat (destruct H as [H|H]; [discriminate H|]). exact H.
  - intros c H _. repeat (destruct H as [<-|H]; [reflexivity|]). contradiction.
Qed.

(** C3, at Arthur and with the letters up to Latin Extended-B: the
    hypotheses hold, the rule agrees with the wording and accepts. *)
Lemma name_rule_on_pattern_letters_witness :
  is_name_field f_nome = true
  /\ covers_pattern_letters latin_letter
  /\ within_pattern_letters latin_letter (lit "Arthur")
  /\ passes zod_emailRegex f_nome (lit "Arthur") = name_rule_spec latin_letter (lit "Arthur")
  /\ passes zod_emailRegex f_nome (lit "Arthur") = true.
Proof.
  split; [reflexivity|]. split; [exact latin_letter_covers|].
  split; [exact arthur_within_pattern_letters|].
  pose proof (name_rule_on_pattern_letters zod_emailRegex latin_letter f_nome
                (lit "Arthur") eq_refl latin_letter_covers) as H.
  destruct H as [H1 [H2 _]]. split.
  - exact (H1 arthur_within_pattern_letters).
  - apply (H2 arthur_within_pattern_letters); [reflexivity|vm_compute; lia].
Defined.

(** C3 as first stated fails both ways: two spaces are a text of letters and
    spaces of length 2 that the rule rejects, and a text of raw length 51
    that trims to two letters is accepted. *)
Lemma name_rule_raw_length_counterexample :
  (forallb letter_or_space (lit "  ") = true
   /\ length (lit "  ") = 2
   /\ passes zod_emailRegex f_nome (lit "  ") = false)
  /\ (forallb letter_or_space (lit "ab" ++ repeat (cu " ") 49) = true
      /\ length (lit "ab" ++ repeat (cu " ") 49) = 51
      /\ passes zod_emailRegex f_nome (lit "ab" ++ repeat (cu " ") 49) = true).
Proof. repeat split. Qed.

(** ** The submission lifecycle *)

Section Lifecycle.

Variable emailRegex : jsstring -> bool.
Variable fetch_env : Request -> FetchResult.

Lemma resolver_inl (v : FormValues) (data : RegistrationFormData) :
  resolver emailRegex v = inl data ->
  forall f, is_valid (registrationSchema emailRegex f (get_value f v)) = true.
Proof.
  unfold resolver. intros H f.
  destruct (registrationSchema emailRegex f_nome (v_nome v)) as [? [|? ?]|?] eqn:En;
  destruct (registrationSchema emailRegex f_sobrenome (v_sobrenome v)) as [? [|? ?]|?] eqn:Es;
  destruct (registrationSchema emailRegex f_email (v_email v)) as [? [|? ?]|?] eqn:Ee;
  destruct (registrationSchema emailRegex f_celular (v_celular v)) as [? [|? ?]|?] eqn:Ec;
  try discriminate.
  destruct f; cbn [get_value]; rewrite ?En, ?Es, ?Ee, ?Ec; reflexivity.
Qed.

Lemma resolver_inr (v : FormValues) (f : FieldName) :
  is_valid (registrationSchema emailRegex f (get_value f v)) = false ->
  resolver emailRegex v =
    inr {| e_nome := validate_field emailRegex f_nome v;
           e_sobrenome := validate_field emailRegex f_sobrenome v;
           e_email := validate_field emailRegex f_email v;
           e_celular := validate_field emailRegex f_celular v |}.
Proof.
  intros H. unfold resolver, validate_field. cbn [get_value].
  destruct (registrationSchema emailRegex f_nome (v_nome v)) as [? [|? ?]|?] eqn:En;
  destruct (registrationSchema emailRegex f_sobrenome (v_sobrenome v)) as [? [|? ?]|?] eqn:Es;
  destruct (registrationSchema emailRegex f_email (v_email v)) as [? [|? ?]|?] eqn:Ee;
  destruct (registrationSchema emailRegex f_celular (v_celular v)) as [? [|? ?]|?] eqn:Ec;
  try reflexivity.
  destruct f; cbn [get_value] in H; rewrite ?En, ?Es, ?Ee, ?Ec in H; discriminate.
Qed.

Lemma invalid_field_has_message (v : FormValues) (f : FieldName) :
  is_valid (registrationSchema emailRegex f (get_value f v)) = false ->
  validate_field emailRegex f v <> None.
Proof.
  unfold validate_field. generalize (get_value f v). intros input.
  destruct f, input as [d|];
    unfold registrationSchema, schema_nome, schema_sobrenome, schema_email,
      schema_celular, refine, string_schema;
    cbn [run_checks];
    repeat match goal with |- context [if ?b then _ else _] => destruct b end;
    cbn; congruence.
Qed.

Lemma statuses_app (t u : list Effect) :
  statuses (t ++ u) = statuses t ++ statuses u.
Proof.
  induction t as [|[s|r] t IH]; simpl; now rewrite ?IH.
Qed.

(** The request a submission builds from the validated values. *)
Lemma exec_onSubmit (data : RegistrationFormData) (w : World) :
  let req :=
    webhook_request
      {| payload_nome := nome data; payload_sobrenome := sobrenome data;
         payload_email := email data;
         payload_celular := filter digit (celular data) |} in
  exec (onSubmit fetch_env data) w =
    match fetch_env req with
    | FetchReturns _ =>
        {| store := {| values := no_values; errors := no_errors;
                       submitStatus := success;
                       statusMessage := "Cadastro enviado com sucesso!" |};
           trace := trace w ++ [StatusSet loading; Dispatched req; StatusSet success] |}
    | FetchThrows =>
        {| store := {| values := values (store w); errors := errors (store w);
                       submitStatus := error;
                       statusMessage := "Erro ao enviar. Tente novamente." |};
           trace := trace w ++ [StatusSet loading; StatusSet error] |}
    end.
Proof.
  cbv zeta. rewrite <- (replace_all_empty_filter digit (celular data)).
  fold nondigit.
  unfold exec, onSubmit, try_catch, bind, fetch, setSubmitStatus, setStatusMessage,
    reset, modify, emit, ret, throw, bind.
  cbn [fst snd store trace values errors submitStatus statusMessage].
  destruct (fetch_env _); cbn [fst snd store trace values errors submitStatus statusMessage];
    rewrite <- !app_assoc; reflexivity.
Qed.

Lemma exec_handleSubmit_invalid (w : World) (f : FieldName) :
  is_valid (registrationSchema emailRegex f (get_value f (values (store w)))) = false ->
  exec (handleSubmit emailRegex (onSubmit fetch_env)) w =
    {| store :=
         {| values := values (store w);
            errors :=
              {| e_nome := validate_field emailRegex f_nome (values (store w));
                 e_sobrenome := validate_field emailRegex f_sobrenome (values (store w));
                 e_email := validate_field emailRegex f_email (values (store w));
                 e_celular := validate_field emailRegex f_celular (values (store w)) |};
            submitStatus := submitStatus (store w);
            statusMessage := statusMessage (store w) |};
       trace := trace w |}.
Proof.
  intros H. unfold exec, handleSubmit, bind, gets.
  rewrite (resolver_inr (values (store w)) f H). reflexivity.
Qed.

Lemma exec_handleSubmit_valid (w : World) (data : RegistrationFormData) :
  resolver emailRegex (values (store w)) = inl data ->
  exec (handleSubmit emailRegex (onSubmit fetch_env)) w =
    exec (onSubmit fetch_env data)
      {| store := {| values := values (store w); errors := no_errors;
                     submitStatus := submitStatus (store w);
                     statusMessage := statusMessage (store w) |};
         trace := trace w |}.
Proof.
  intros H. unfold exec, handleSubmit, bind, gets. rewrite H. reflexivity.
Qed.

(** Typing, in any field, writes the values and at most the field messages. *)
Lemma exec_edit (ev : UserEvent) (w : World) :
  is_edit ev = true ->
  let w' := exec (handle emailRegex fetch_env ev) w in
  submitStatus (store w') = submitStatus (store w)
  /\ statusMessage (store w') = statusMessage (store w)
  /\ trace w' = trace w.
Proof.
  destruct ev; try discriminate; intros _; cbv zeta; repeat split.
Qed.

End Lifecycle.

Section LifecycleClaims.

Variable emailRegex : jsstring -> bool.
Variable fetch_env : Request -> FetchResult.

(** C5. With the values Arthur, Takeat, arthur.takeat@gmail.com and
    (11) 98765-4321 in the form (the address being one the email pattern
    accepts, and the fetch call returning its promise), a submit from idle
    writes loading, dispatches one request, a POST to the webhook whose body
    is exactly the payload Arthur, Takeat, arthur.takeat@gmail.com,
    11987654321, writes success, sets the confirmation message and clears
    the four values, the phone input showing the empty text, whatever the
    promise settles to. *)
Theorem submit_valid_example (w : World) (promise : NetworkOutcome) :
  let payload :=
    {| payload_nome := lit "Arthur"; payload_sobrenome := lit "Takeat";
       payload_email := lit "arthur.takeat@gmail.com";
       payload_celular := lit "11987654321" |} in
  let request :=
    {| url := "https://webhook.takeat.cloud/webhook/criar_aluno_frappe";
       method := "POST"; mode := "no-cors";
       content_type := "application/json"; body := payload |} in
  emailRegex (lit "arthur.takeat@gmail.com") = true ->
  fetch_env request = FetchReturns promise ->
  values (store w) =
    {| v_nome := Some (lit "Arthur"); v_sobrenome := Some (lit "Takeat");
       v_email := Some (lit "arthur.takeat@gmail.com");
       v_celular := Some (lit "(11) 98765-4321") |} ->
  submitStatus (store w) = idle ->
  let w' := exec (handle emailRegex fetch_env Submit) w in
  trace w' = trace w ++ [StatusSet loading; Dispatched request; StatusSet success]
  /\ submitStatus (store w) :: statuses (skipn (length (trace w)) (trace w'))
     = [idle; loading; success]
  /\ dispatches (skipn (length (trace w)) (trace w')) = [request]
  /\ map body (dispatches (skipn (length (trace w)) (trace w'))) = [payload]
  /\ map url (dispatches (skipn (length (trace w)) (trace w')))
     = ["https://webhook.takeat.cloud/webhook/criar_aluno_frappe"%string]
  /\ submitStatus (store w') = success
  /\ statusMessage (store w') = "Cadastro enviado com sucesso!"%string
  /\ values (store w') = no_values
  /\ celularValue (store w') = lit "".
Proof.
  intros payload request He Hf Hv Hs w'.
  assert (Hr : resolver emailRegex (values (store w)) =
               inl {| nome := lit "Arthur"; sobrenome := lit "Takeat";
                      email := lit "arthur.takeat@gmail.com";
                      celular := lit "(11) 98765-4321" |}).
  { rewrite Hv. unfold resolver. cbn [v_nome v_sobrenome v_email v_celular].
    assert (Ee : registrationSchema emailRegex f_email (Some (lit "arthur.takeat@gmail.com"))
                 = Parsed (lit "arthur.takeat@gmail.com") []).
    { unfold registrationSchema, schema_email, refine, string_schema. cbn [run_checks].
      change (trim (lit "arthur.takeat@gmail.com")) with (lit "arthur.takeat@gmail.com").
      rewrite He. reflexivity. }
    rewrite Ee. reflexivity. }
  assert (Hw : w' = {| store := {| values := no_values; errors := no_errors;
                                   submitStatus := success;
                                   statusMessage := "Cadastro enviado com sucesso!" |};
                       trace := trace w ++ [StatusSet loading;
                                            Dispatched request;
                                            StatusSet success] |}).
  { unfold w'. cbn [handle]. rewrite (exec_handleSubmit_valid _ _ _ _ Hr).
    rewrite exec_onSubmit. cbv zeta.
    cbn [nome sobrenome email celular trace store].
    change (filter digit (lit "(11) 98765-4321")) with (lit "11987654321").
    fold payload. change (webhook_request payload) with request.
    rewrite Hf. reflexivity. }
  rewrite Hw, Hs. cbn [trace store submitStatus statusMessage values].
  rewrite skipn_app, skipn_all, Nat.sub_diag. repeat split.
Qed.

(** C6. When some field fails its rule, a submit writes no status and
    dispatches nothing: status, message and values stay as they were, the
    trace gains no effect, and every field gets the message of its rule,
    the failing one among them. With arthur@gmail.com as address and the
    other three values valid, the email field alone gets a message. *)
Theorem submit_invalid_stays (w : World) :
  let w' := exec (handle emailRegex fetch_env Submit) w in
  (forall f,
     is_valid (registrationSchema emailRegex f (get_value f (values (store w)))) = false ->
     submitStatus (store w') = submitStatus (store w)
     /\ statusMessage (store w') = statusMessage (store w)
     /\ values (store w') = values (store w)
     /\ trace w' = trace w
     /\ (forall g, get_error g (errors (store w'))
                   = validate_field emailRegex g (values (store w)))
     /\ get_error f (errors (store w')) <> None)
  /\ (values (store w) =
        {| v_nome := Some (lit "Arthur"); v_sobrenome := Some (lit "Takeat");
           v_email := Some (lit "arthur@gmail.com");
           v_celular := Some (lit "(11) 98765-4321") |} ->
      submitStatus (store w') = submitStatus (store w)
      /\ trace w' = trace w
      /\ e_email (errors (store w')) <> None
      /\ e_nome (errors (store w')) = None
      /\ e_sobrenome (errors (store w')) = None
      /\ e_celular (errors (store w')) = None).
Proof.
  cbv zeta. cbn [handle]. split.
  - intros f Hf. rewrite (exec_handleSubmit_invalid _ _ _ _ Hf).
    cbn [store trace values errors submitStatus statusMessage].
    repeat split.
    + intros g. destruct g; reflexivity.
    + destruct f; cbn [get_error e_nome e_sobrenome e_email e_celular];
        now apply invalid_field_has_message.
  - intros Hv.
    assert (Hf : is_valid (registrationSchema emailRegex f_email
                             (get_value f_email (values (store w)))) = false).
    { rewrite Hv. cbn [get_value v_email].
      unfold registrationSchema, schema_email, refine, string_schema. cbn [run_checks].
      change (includes (trim (lit "arthur@gmail.com")) takeat_token) with false.
      cbv iota. now destruct (emailRegex _). }
    rewrite (exec_handleSubmit_invalid _ _ _ _ Hf).
    cbn [store trace values errors submitStatus statusMessage
         e_nome e_sobrenome e_email e_celular].
    repeat split.
    + now apply invalid_field_has_message.
    + rewrite Hv. reflexivity.
    + rewrite Hv. reflexivity.
    + rewrite Hv. reflexivity.
Qed.

(** C7. Once [onSubmit] runs on validated values it writes loading; if the
    fetch call returns, the request is dispatched and success is written
    with the confirmation message, whatever the promise settles to; the
    status ends as error exactly when the fetch call throws before a request
    leaves, and then the generic message is set and nothing was dispatched.
    Two environments that throw on the same requests give the same run. *)
Theorem onSubmit_fire_and_forget (data : RegistrationFormData) (w : World) :
  let req :=
    webhook_request
      {| payload_nome := nome data; payload_sobrenome := sobrenome data;
         payload_email := email data;
         payload_celular := filter digit (celular data) |} in
  let w' := exec (onSubmit fetch_env data) w in
  (forall promise,
     fetch_env req = FetchReturns promise ->
     trace w' = trace w ++ [StatusSet loading; Dispatched req; StatusSet success]
     /\ submitStatus (store w') = success
     /\ statusMessage (store w') = "Cadastro enviado com sucesso!"%string)
  /\ (submitStatus (store w') = error <-> fetch_env req = FetchThrows)
  /\ (fetch_env req = FetchThrows ->
      trace w' = trace w ++ [StatusSet loading; StatusSet error]
      /\ statusMessage (store w') = "Erro ao enviar. Tente novamente."%string)
  /\ (forall other_env : Request -> FetchResult,
      (other_env req = FetchThrows <-> fetch_env req = FetchThrows) ->
      exec (onSubmit other_env data) w = w').
Proof.
  intros req w'. unfold w'. rewrite exec_onSubmit. cbv zeta. fold req.
  repeat split.
  - rewrite H. reflexivity.
  - rewrite H. reflexivity.
  - rewrite H. reflexivity.
  - destruct (fetch_env req); [reflexivity|discriminate].
  - intros ->. reflexivity.
  - rewrite H. reflexivity.
  - rewrite H. reflexivity.
  - intros other_env [H1 H2].
    rewrite (exec_onSubmit other_env). cbv zeta. fold req.
    destruct (other_env req), (fetch_env req); try reflexivity;
      [specialize (H1 eq_refl)|specialize (H2 eq_refl)]; discriminate.
Qed.

(** C8 (amended). Typing in any field, in a terminal state too, leaves the
    submission status and its message as they were and has no outbound
    effect: no edit resets the status to idle. *)
Theorem edit_keeps_status (ev : UserEvent) (w : World) :
  is_edit ev = true ->
  let w' := exec (handle emailRegex fetch_env ev) w in
  submitStatus (store w') = submitStatus (store w)
  /\ statusMessage (store w') = statusMessage (store w)
  /\ trace w' = trace w.
Proof. apply exec_edit. Qed.

End LifecycleClaims.

(** ** The claims at concrete runs *)

(** C5, in a browser whose request is rejected by the network: the typed
    values satisfy the hypotheses, the request carries the payload to the
    webhook, and the submit still ends in success. *)
Lemma submit_valid_example_witness :
  trace (world_submitted offline) =
    [ StatusSet loading;
      Dispatched
        {| url := "https://webhook.takeat.cloud/webhook/criar_aluno_frappe";
           method := "POST"; mode := "no-cors";
           content_type := "application/json";
           body :=
             {| payload_nome := lit "Arthur"; payload_sobrenome := lit "Takeat";
                payload_email := lit "arthur.takeat@gmail.com";
                payload_celular := lit "11987654321" |} |};
      StatusSet success ]
  /\ submitStatus (store (world_submitted offline)) = success
  /\ values (store (world_submitted offline)) = no_values.
Proof.
  pose proof (submit_valid_example zod_emailRegex offline
                (world_typed offline typing_valid) Rejected
                eq_refl eq_refl eq_refl eq_refl) as H.
  cbv zeta in H. destruct H as [Ht [_ [_ [_ [_ [Hs [_ [Hv _]]]]]]]].
  exact (conj Ht (conj Hs Hv)).
Defined.

(** C6, with the address that lacks the token: the rule of the email field
    fails, nothing is written or sent, and the field gets its message. *)
Lemma submit_invalid_stays_witness :
  submitStatus (store (exec (handle zod_emailRegex online Submit)
                         (world_typed online typing_bad_email))) = idle
  /\ trace (exec (handle zod_emailRegex online Submit)
              (world_typed online typing_bad_email)) = []
  /\ e_email (errors (store (exec (handle zod_emailRegex online Submit)
                               (world_typed online typing_bad_email)))) <> None.
Proof.
  pose proof (proj1 (submit_invalid_stays zod_emailRegex online
                       (world_typed online typing_bad_email)) f_email eq_refl) as H.
  destruct H as [Hs [_ [_ [Ht [_ He]]]]].
  exact (conj Hs (conj Ht He)).
Defined.

(** C8, typing a digit into the phone field after a successful submit: the
    status is still success. *)
Lemma edit_keeps_status_witness :
  is_edit (Type_celular (lit "1")) = true
  /\ submitStatus (store (exec (handle zod_emailRegex online (Type_celular (lit "1")))
                            (world_submitted online))) = success.
Proof.
  split; [reflexivity|].
  exact (proj1 (edit_keeps_status zod_emailRegex online (Type_celular (lit "1"))
                  (world_submitted online) eq_refl)).
Defined.

(** C8 as first stated fails: after a submit that ended in success, and
    after one that ended in error, typing in a field leaves the status in
    that terminal state instead of idle. *)
Lemma edit_in_terminal_state_counterexample :
  (is_terminal (submitStatus (store (world_submitted online))) = true
   /\ is_edit (Type_nome (lit "A")) = true
   /\ submitStatus (store (exec (handle zod_emailRegex online (Type_nome (lit "A")))
                             (world_submitted online))) = success)
  /\ (is_terminal (submitStatus (store (world_submitted broken))) = true
      /\ is_edit (Type_celular (lit "1")) = true
      /\ submitStatus (store (exec (handle zod_emailRegex broken (Type_celular (lit "1")))
                                (world_submitted broken))) = error).
Proof. repeat split. Qed.

(** * Further properties of the code *)

(** ** The phone mask, continued *)

Section PhoneMaskMore.

#[local] Arguments firstn : simpl never.
#[local] Arguments skipn : simpl never.

Lemma formatPhone_first11 (x : jsstring) :
  formatPhone x = formatPhone (firstn 11 (filter digit x)).
Proof.
  rewrite formatPhone_firstn11 by apply forallb_filter_self.
  apply formatPhone_of_digits.
Qed.

Lemma forallb_app_true (p : cclass) (a b : jsstring) :
  forallb p a = true -> forallb p b = true -> forallb p (a ++ b) = true.
Proof. intros Ha Hb. now rewrite forallb_app, Ha, Hb. Qed.

Lemma digit_mask_class (s : jsstring) :
  forallb digit s = true -> forallb mask_class s = true.
Proof.
  rewrite !forallb_forall. intros H c Hc. unfold mask_class, union.
  now rewrite (H c Hc).
Qed.

(** A non-empty list of digits ends in a digit. *)
Lemma digits_last (d : jsstring) :
  d <> [] -> forallb digit d = true ->
  exists body c, d = body ++ [c] /\ digit c = true.
Proof.
  intros Hne Hd. destruct (exists_last Hne) as [body [c E]].
  exists body, c. split; [exact E|].
  rewrite E, forallb_app in Hd. apply andb_prop in Hd as [_ Hc].
  simpl in Hc. now rewrite andb_true_r in Hc.
Qed.

Lemma formatPhone_ends_with_digit (x : jsstring) :
  formatPhone x = [] \/
  exists body c, formatPhone x = body ++ [c] /\ digit c = true.
Proof.
  rewrite formatPhone_unfold. cbv zeta.
  pose proof (forallb_filter_self digit x) as Hd.
  generalize dependent (filter digit x). intros d Hd.
  destruct (length d <=? 2) eqn:E2.
  - destruct (length d =? 0) eqn:E0; [now left|right].
    apply Nat.eqb_neq in E0.
    destruct (digits_last d) as [body [c [E Hc]]];
      [intros ->; now apply E0|exact Hd|].
    exists (lit "(" ++ body), c. cbn [negb]. rewrite E at 1. now rewrite app_assoc.
  - apply Nat.leb_gt in E2. right.
    destruct (length d <=? 7) eqn:E7.
    + destruct (digits_last (skipn 2 d)) as [body [c [E Hc]]].
      * intros H. apply (f_equal (@length _)) in H. rewrite length_skipn in H.
        cbn [length] in H. lia.
      * now apply forallb_skipn.
      * exists (lit "(" ++ firstn 2 d ++ lit ") " ++ body), c.
        rewrite E at 1. now rewrite <- !app_assoc.
    + apply Nat.leb_gt in E7.
      destruct (digits_last (firstn 4 (skipn 7 d))) as [body [c [E Hc]]].
      * intros H. apply (f_equal (@length _)) in H.
        rewrite length_firstn, length_skipn in H. cbn [length] in H. lia.
      * now apply forallb_firstn, forallb_skipn.
      * exists (lit "(" ++ firstn 2 d ++ lit ") " ++ firstn 5 (skipn 2 d) ++ lit "-" ++ body), c.
        rewrite E at 1. now rewrite <- !app_assoc.
Qed.

(** X1. The masked text never exceeds the [maxLength] of the phone input,
    and it is never shorter than the digits it shows. *)
Theorem formatPhone_fits_maxLength (x : jsstring) :
  length (formatPhone x) <= maxLength
  /\ length (firstn 11 (filter digit x)) <= length (formatPhone x).
Proof.
  unfold maxLength. rewrite formatPhone_unfold. cbv zeta.
  generalize (filter digit x) as d. intros d.
  rewrite length_firstn.
  destruct (length d <=? 2) eqn:E2.
  - apply Nat.leb_le in E2. destruct (length d =? 0) eqn:E0; cbn [negb].
    + apply Nat.eqb_eq in E0. cbn [length]. lia.
    + rewrite length_app. cbn [length lit]. lia.
  - apply Nat.leb_gt in E2. destruct (length d <=? 7) eqn:E7.
    + apply Nat.leb_le in E7.
      rewrite !length_app, length_firstn, length_skipn. cbn [length lit]. lia.
    + apply Nat.leb_gt in E7.
      rewrite !length_app, !length_firstn, !length_skipn. cbn [length lit]. lia.
Qed.

(** X2. The masked text holds nothing but digits and the four characters of
    the mask: parentheses, space and hyphen. *)
Theorem formatPhone_alphabet (x : jsstring) :
  forallb mask_class (formatPhone x) = true.
Proof.
  rewrite formatPhone_unfold. cbv zeta.
  pose proof (forallb_filter_self digit x) as Hd.
  generalize dependent (filter digit x). intros d Hd.
  destruct (length d <=? 2).
  - destruct (negb (length d =? 0)); [|reflexivity].
    apply forallb_app_true; [reflexivity|now apply digit_mask_class].
  - destruct (length d <=? 7);
      repeat (apply forallb_app_true; try reflexivity);
      apply digit_mask_class;
      repeat first [apply forallb_firstn | apply forallb_skipn]; exact Hd.
Qed.

(** X3. Stripping the mask the way [onSubmit] does gives back the digits
    that were typed, up to the 11th. *)
Theorem strip_formatPhone (x : jsstring) :
  replace_all_empty nondigit (formatPhone x)
  = firstn 11 (replace_all_empty nondigit x).
Proof.
  unfold nondigit. rewrite !replace_all_empty_filter. apply digits_of_formatPhone.
Qed.

(** X4. Masking as the user types: masking the already masked text followed
    by new input equals masking the raw input followed by the same input. *)
Theorem formatPhone_incremental (x y : jsstring) :
  formatPhone (formatPhone x ++ y) = formatPhone (x ++ y).
Proof.
  rewrite (formatPhone_first11 (formatPhone x ++ y)), (formatPhone_first11 (x ++ y)).
  f_equal. rewrite !filter_app, digits_of_formatPhone.
  generalize (filter digit x) as d, (filter digit y) as e. intros d e.
  destruct (Nat.le_gt_cases (length d) 11) as [H|H].
  - now rewrite (firstn_all2 d H).
  - rewrite !firstn_app, firstn_firstn. rewrite length_firstn.
    replace (11 - Nat.min 11 (length d)) with 0 by lia.
    replace (11 - length d) with 0 by lia.
    reflexivity.
Qed.

(** X5. Two inputs get the same masked text exactly when their first 11
    digits agree: everything else in the input is ignored, and no digit
    among the first 11 is. *)
Theorem formatPhone_same_iff (x y : jsstring) :
  formatPhone x = formatPhone y
  <-> firstn 11 (filter digit x) = firstn 11 (filter digit y).
Proof.
  split.
  - intros H. rewrite <- !digits_of_formatPhone. now rewrite H.
  - intros H. rewrite (formatPhone_first11 x), (formatPhone_first11 y). now rewrite H.
Qed.

(** X6. A non-empty masked text ends in a digit, so deleting its last
    character and masking again shows the same digits without the last. *)
Theorem formatPhone_backspace (x : jsstring) :
  formatPhone (removelast (formatPhone x))
  = formatPhone (removelast (firstn 11 (filter digit x))).
Proof.
  rewrite (formatPhone_of_digits (removelast (formatPhone x))). f_equal.
  rewrite <- digits_of_formatPhone.
  destruct (formatPhone_ends_with_digit x) as [E|[body [c [E Hc]]]].
  - rewrite E. reflexivity.
  - rewrite E, removelast_last, filter_app. cbn [filter]. rewrite Hc.
    now rewrite removelast_last.
Qed.

End PhoneMaskMore.

(** ** The phone rule and the mask *)

Section PhoneRuleMore.

#[local] Arguments firstn : simpl never.
#[local] Arguments skipn : simpl never.

Lemma passes_celular (emailRegex : jsstring -> bool) (s : jsstring) :
  passes emailRegex f_celular s = test celular_regex s.
Proof.
  unfold passes, registrationSchema, schema_celular, string_schema. cbn [run_checks].
  now destruct (test celular_regex s).
Qed.

(** What a match of the phone pattern looks like. *)
Lemma celular_regex_inv (s : jsstring) :
  test celular_regex s = true ->
  exists d0 d1 d2 d3 d4 d5 d6 d7 d8 d9 d10,
    s = [cu "("; d0; d1; cu ")"; cu " "; d2; d3; d4; d5; d6; cu "-"; d7; d8; d9; d10]
    /\ forallb digit [d0; d1; d2; d3; d4; d5; d6; d7; d8; d9; d10] = true.
Proof.
  intros H. pose proof (celular_regex_length s H) as L.
  destruct s as [|c0 [|c1 [|c2 [|c3 [|c4 [|c5 [|c6 [|c7 [|c8 [|c9 [|c10 [|c11
    [|c12 [|c13 [|c14 [|c15 r]]]]]]]]]]]]]]]]; try discriminate L.
  unfold celular_regex in H. cbn [test take_exactly] in H.
  repeat match type of H with
         | context [if ?b then _ else _] =>
             let E := fresh "E" in destruct b eqn:E; [cbn [test take_exactly] in H|discriminate H]
         end.
  unfold chr in *.
  repeat match goal with
         | E : (_ =? _)%N = true |- _ => apply N.eqb_eq in E; subst
         end.
  exists c1, c2, c5, c6, c7, c8, c9, c11, c12, c13, c14.
  split; [reflexivity|]. cbn [forallb].
  repeat match goal with E : digit _ = true |- _ => rewrite E; clear E end.
  reflexivity.
Qed.

Lemma test_formatPhone_complete (x : jsstring) :
  11 <= length (filter digit x) -> test celular_regex (formatPhone x) = true.
Proof.
  intros H. pose proof (forallb_filter_self digit x) as Hd.
  destruct (filter digit x)
    as [|d0 [|d1 [|d2 [|d3 [|d4 [|d5 [|d6 [|d7 [|d8 [|d9 [|d10 rest]]]]]]]]]]] eqn:E;
    cbn [length] in H; try lia.
  rewrite (formatPhone_full x _ _ _ _ _ _ _ _ _ _ _ _ E). apply celular_regex_shape.
  cbn [forallb] in *.
  repeat (apply andb_prop in Hd as [?Hc Hd]).
  now rewrite Hc, Hc0, Hc1, Hc2, Hc3, Hc4, Hc5, Hc6, Hc7, Hc8, Hc9.
Qed.

(** The digits of a matching text are 11, and masking them gives the text. *)
Lemma valid_celular_digits (s : jsstring) :
  test celular_regex s = true ->
  length (filter digit s) = 11
  /\ forallb digit (filter digit s) = true
  /\ formatPhone (filter digit s) = s.
Proof.
  intros H. destruct (celular_regex_inv s H)
    as (d0 & d1 & d2 & d3 & d4 & d5 & d6 & d7 & d8 & d9 & d10 & -> & Hd).
  assert (F : filter digit
                [cu "("; d0; d1; cu ")"; cu " "; d2; d3; d4; d5; d6; cu "-"; d7; d8; d9; d10]
              = [d0; d1; d2; d3; d4; d5; d6; d7; d8; d9; d10]).
  { cbn [forallb] in Hd. repeat (apply andb_prop in Hd as [?Hc Hd]).
    cbn [filter].
    change (digit (cu "(")) with false. change (digit (cu ")")) with false.
    change (digit (cu " ")) with false. change (digit (cu "-")) with false.
    cbv iota.
    now rewrite Hc, Hc0, Hc1, Hc2, Hc3, Hc4, Hc5, Hc6, Hc7, Hc8, Hc9. }
  rewrite F. repeat split; [exact Hd|].
  apply formatPhone_full with (rest := []).
  now apply filter_all.
Qed.

(** X7. A phone value passes its rule exactly when it is the masked text of
    its own digits and these are 11: the valid values are the complete
    outputs of the mask and nothing else. *)
Theorem celular_valid_iff_masked (emailRegex : jsstring -> bool) (s : jsstring) :
  passes emailRegex f_celular s = true
  <-> length (replace_all_empty nondigit s) = 11
      /\ formatPhone (replace_all_empty nondigit s) = s.
Proof.
  rewrite passes_celular. unfold nondigit. rewrite replace_all_empty_filter. split.
  - intros H. destruct (valid_celular_digits s H) as [L [_ E]]. now split.
  - intros [L E]. rewrite <- E, <- formatPhone_of_digits.
    apply test_formatPhone_complete. lia.
Qed.

End PhoneRuleMore.

(** ** The text rules, continued *)

Section TrimMore.

Lemma trimStart_app_ws (pre y : jsstring) :
  forallb white_space pre = true -> trimStart (pre ++ y) = trimStart y.
Proof.
  induction pre as [|c pre IH]; [reflexivity|].
  cbn [forallb app trimStart]. intros H. apply andb_prop in H as [Hc Hp].
  rewrite Hc. now apply IH.
Qed.

Lemma trimStart_all_ws (s : jsstring) :
  forallb white_space s = true -> trimStart s = [].
Proof.
  intros H. rewrite <- (app_nil_r s). now rewrite trimStart_app_ws.
Qed.

Lemma trimEnd_app_ws (y post : jsstring) :
  forallb white_space post = true -> trimEnd (y ++ post) = trimEnd y.
Proof.
  intros H. unfold trimEnd. rewrite rev_app_distr, trimStart_app_ws; [reflexivity|].
  rewrite forallb_forall in *. intros c Hc. apply H. now apply in_rev.
Qed.

Lemma trim_app_ws_r (x post : jsstring) :
  forallb white_space post = true -> trim (x ++ post) = trim x.
Proof.
  intros H. unfold trim. induction x as [|c t IH].
  - cbn [app]. rewrite (trimStart_all_ws post H). reflexivity.
  - cbn [app trimStart]. destruct (white_space c); [exact IH|].
    now apply (trimEnd_app_ws (c :: t)).
Qed.

(** Whitespace around a text does not change what trimming leaves. *)
Lemma trim_padded (pre x post : jsstring) :
  forallb white_space pre = true -> forallb white_space post = true ->
  trim (pre ++ x ++ post) = trim x.
Proof.
  intros Hp Hq. unfold trim at 1. rewrite trimStart_app_ws by exact Hp.
  now apply trim_app_ws_r.
Qed.

Lemma trim_idempotent (x : jsstring) : trim (trim x) = trim x.
Proof.
  destruct (trim_split x) as [pre [post [E [Hp Hq]]]].
  rewrite E at 2. symmetry. now apply trim_padded.
Qed.

End TrimMore.

Section TextRulesMore.

Variable emailRegex : jsstring -> bool.

(** The three text schemas start by trimming. *)
Lemma schema_trims_first (f : FieldName) (x : jsstring) :
  f <> f_celular ->
  registrationSchema emailRegex f (Some x)
  = registrationSchema emailRegex f (Some (trim x)).
Proof.
  intros Hf. destruct f; try contradiction;
    unfold registrationSchema, schema_nome, schema_sobrenome, schema_email,
      refine, string_schema;
    cbn [run_checks]; now rewrite trim_idempotent.
Qed.

(** X8. Whitespace before and after the text never changes what the rules
    of nome, sobrenome and email return: neither the verdict and messages
    nor the validated value. *)
Theorem text_rules_ignore_padding (f : FieldName) (pre x post : jsstring) :
  f <> f_celular ->
  forallb white_space pre = true -> forallb white_space post = true ->
  registrationSchema emailRegex f (Some (pre ++ x ++ post))
  = registrationSchema emailRegex f (Some x).
Proof.
  intros Hf Hp Hq.
  transitivity (registrationSchema emailRegex f (Some (trim x))).
  - rewrite <- (trim_padded pre x post Hp Hq). now apply schema_trims_first.
  - symmetry. now apply schema_trims_first.
Qed.

(** Validating again what a rule returned gives the same value and the
    same issues. *)
Lemma revalidation_is_stable (f : FieldName) (x v : jsstring) (i : list message) :
  registrationSchema emailRegex f (Some x) = Parsed v i ->
  registrationSchema emailRegex f (Some v) = Parsed v i.
Proof.
  destruct f;
    unfold registrationSchema, schema_nome, schema_sobrenome, schema_email,
      schema_celular, refine, string_schema;
    cbn [run_checks]; intros [= <- <-]; now rewrite ?trim_idempotent.
Qed.

(** X9. A name rule passes exactly when the trimmed text has between 2 and
    50 code units and every code unit of the raw input is one of a-z, A-Z,
    U+00C0..U+00FF or whitespace. *)
Theorem name_rule_exactly (f : FieldName) (x : jsstring) :
  is_name_field f = true ->
  (passes emailRegex f x = true
   <-> 2 <= length (trim x) <= 50 /\ forall c, In c x -> name_class c = true).
Proof.
  intros Hf. rewrite (passes_name emailRegex) by exact Hf.
  unfold name_regex. rewrite test_one_or_more.
  destruct (trim_split x) as [pre [post [E [Hp Hq]]]].
  assert (W : forall s c, forallb white_space s = true -> In c s -> name_class c = true).
  { intros s c Hs Hc. rewrite forallb_forall in Hs. unfold name_class, union.
    rewrite (Hs c Hc). now rewrite !orb_true_r. }
  split.
  - intros H. apply andb_prop in H as [H H3]. apply andb_prop in H as [H1 H2].
    apply negb_true_iff in H1, H2. apply Nat.ltb_ge in H1, H2.
    split; [lia|]. intros c Hc. rewrite E, !in_app_iff in Hc.
    destruct Hc as [Hc|[Hc|Hc]]; [now apply (W pre)| |now apply (W post)].
    destruct (trim x) as [|c' t]; [contradiction|].
    rewrite forallb_forall in H3. now apply H3.
  - intros [[H1 H2] H].
    replace (length (trim x) <? 2) with false by (symmetry; apply Nat.ltb_ge; lia).
    replace (50 <? length (trim x)) with false by (symmetry; apply Nat.ltb_ge; lia).
    cbn [negb andb].
    destruct (trim x) as [|c' t] eqn:T; [cbn [length] in H1; lia|].
    rewrite forallb_forall. intros c Hc. apply H. apply in_trim. now rewrite T.
Qed.

End TextRulesMore.

(** ** Every state the component reaches *)

Section Reachable.

Variable emailRegex : jsstring -> bool.
Variable fetch_env : Request -> FetchResult.

(** No handler lets an exception out: [onSubmit] catches the only one. *)
Lemma handle_normal (ev : UserEvent) (w : World) :
  fst (handle emailRegex fetch_env ev w) = Normal tt.
Proof.
  destruct ev; try reflexivity.
  cbn [handle]. unfold handleSubmit, bind, gets.
  destruct (resolver emailRegex (values (store w))); [|reflexivity].
  unfold onSubmit, try_catch, bind, fetch, setSubmitStatus, setStatusMessage,
    reset, set_errors, modify, emit, ret, throw.
  cbn [fst snd]. now destruct (fetch_env _).
Qed.

Lemma exec_handle_all_cons (ev : UserEvent) (evs : list UserEvent) (w : World) :
  exec (handle_all emailRegex fetch_env (ev :: evs)) w
  = exec (handle_all emailRegex fetch_env evs) (exec (handle emailRegex fetch_env ev) w).
Proof.
  unfold exec. cbn [handle_all]. unfold bind.
  pose proof (handle_normal ev w) as H.
  destruct (handle emailRegex fetch_env ev w) as [[[]|] w']; [reflexivity|discriminate H].
Qed.

Lemma dispatches_app (t u : list Effect) :
  dispatches (t ++ u) = dispatches t ++ dispatches u.
Proof.
  induction t as [|[s|r] t IH]; simpl; now rewrite ?IH.
Qed.

Lemma successes_app (t u : list Effect) :
  successes (t ++ u) = successes t + successes u.
Proof.
  unfold successes. now rewrite statuses_app, filter_app, length_app.
Qed.

(** The validated values are what the rules returned on values that were
    all set. *)
Lemma resolver_data (v : FormValues) (data : RegistrationFormData) :
  resolver emailRegex v = inl data ->
  exists xn xs xe xc,
    v = {| v_nome := Some xn; v_sobrenome := Some xs;
           v_email := Some xe; v_celular := Some xc |}
    /\ registrationSchema emailRegex f_nome (Some xn) = Parsed (nome data) []
    /\ registrationSchema emailRegex f_sobrenome (Some xs) = Parsed (sobrenome data) []
    /\ registrationSchema emailRegex f_email (Some xe) = Parsed (email data) []
    /\ registrationSchema emailRegex f_celular (Some xc) = Parsed (celular data) [].
Proof.
  unfold resolver. intros H.
  destruct (registrationSchema emailRegex f_nome (v_nome v)) as [? [|? ?]|?] eqn:En;
  destruct (registrationSchema emailRegex f_sobrenome (v_sobrenome v)) as [? [|? ?]|?] eqn:Es;
  destruct (registrationSchema emailRegex f_email (v_email v)) as [? [|? ?]|?] eqn:Ee;
  destruct (registrationSchema emailRegex f_celular (v_celular v)) as [? [|? ?]|?] eqn:Ec;
  try discriminate H.
  injection H as <-. cbn [nome sobrenome email celular].
  destruct v as [[xn|] [xs|] [xe|] [xc|]];
    cbn [v_nome v_sobrenome v_email v_celular] in *;
    try discriminate En; try discriminate Es; try discriminate Ee; try discriminate Ec.
  now exists xn, xs, xe, xc.
Qed.

Lemma passes_parsed (f : FieldName) (x v : jsstring) :
  registrationSchema emailRegex f (Some x) = Parsed v [] ->
  passes emailRegex f v = true.
Proof.
  intros H. unfold passes.
  now rewrite (revalidation_is_stable emailRegex f x v [] H).
Qed.

Lemma parsed_celular (x v : jsstring) :
  registrationSchema emailRegex f_celular (Some x) = Parsed v [] ->
  test celular_regex v = true.
Proof.
  intros H. rewrite <- (passes_celular emailRegex). now apply (passes_parsed f_celular x).
Qed.

(** The request of a submit that passed validation is a validated one. *)
Lemma validated_request_of (v : FormValues) (data : RegistrationFormData) :
  resolver emailRegex v = inl data ->
  validated_request emailRegex
    (webhook_request
       {| payload_nome := nome data; payload_sobrenome := sobrenome data;
          payload_email := email data;
          payload_celular := filter digit (celular data) |}).
Proof.
  intros H. destruct (resolver_data v data H)
    as (xn & xs & xe & xc & _ & Hn & Hs & He & Hc).
  destruct (valid_celular_digits (celular data) (parsed_celular xc _ Hc)) as [L [D _]].
  unfold validated_request. cbn [url body webhook_request payload_nome payload_sobrenome
    payload_email payload_celular].
  repeat split.
  - now apply (passes_parsed f_nome xn).
  - now apply (passes_parsed f_sobrenome xs).
  - now apply (passes_parsed f_email xe).
  - exact L.
  - exact D.
Qed.

Lemma formatPhone_twice (x : jsstring) :
  formatPhone (formatPhone x) = formatPhone x.
Proof.
  rewrite (formatPhone_first11 (formatPhone x)), digits_of_formatPhone, firstn_firstn.
  symmetry. apply formatPhone_first11.
Qed.

Lemma invariant_initial : invariant emailRegex initial_world.
Proof.
  repeat split. apply Forall_nil.
Qed.

Lemma invariant_step (ev : UserEvent) (w : World) :
  invariant emailRegex w ->
  invariant emailRegex (exec (handle emailRegex fetch_env ev) w).
Proof.
  intros (Hs & Hm & Hd & Hn).
  destruct ev as [t|t|t|t|f|].
  - now repeat split.
  - now repeat split.
  - now repeat split.
  - repeat split; try assumption.
    unfold celular_masked, celularValue.
    cbn -[formatPhone].
    destruct (formatPhone t) as [|c r] eqn:E; [reflexivity|].
    rewrite <- E. apply formatPhone_twice.
  - now repeat split.
  - cbn [handle].
    destruct (resolver emailRegex (values (store w))) as [data|errs] eqn:R.
    + rewrite (exec_handleSubmit_valid emailRegex fetch_env w data R), exec_onSubmit.
      cbv zeta. cbn [store trace].
      pose proof (validated_request_of _ _ R) as V.
      destruct (fetch_env _); unfold invariant; cbn [store trace];
        (split; [reflexivity|split; [first [reflexivity|exact Hm]|split]]);
        rewrite ?dispatches_app, ?successes_app, ?length_app, ?Hn;
        try reflexivity.
      * cbn [dispatches]. now rewrite app_nil_r.
      * apply Forall_app. split; [exact Hd|].
        constructor; [exact V|constructor].
    + unfold exec, handleSubmit, bind, gets. rewrite R.
      now repeat split.
Qed.

Lemma invariant_run (evs : list UserEvent) (w : World) :
  invariant emailRegex w ->
  invariant emailRegex (exec (handle_all emailRegex fetch_env evs) w).
Proof.
  revert w. induction evs as [|ev evs IH]; intros w H; [exact H|].
  rewrite exec_handle_all_cons. apply IH. now apply invariant_step.
Qed.

End Reachable.

Section ReachableClaims.

Variable emailRegex : jsstring -> bool.
Variable fetch_env : Request -> FetchResult.

(** X10. Whatever the user does from the first render on, the component
    never rests in loading: after every sequence of events the submit button
    is enabled and carries its normal label. *)
Theorem submit_button_never_stuck (evs : list UserEvent) :
  let st := store (exec (handle_all emailRegex fetch_env evs) initial_world) in
  submitStatus st <> loading
  /\ submit_disabled st = false
  /\ submit_label st = "Criar Conta"%string.
Proof.
  cbv zeta.
  destruct (invariant_run emailRegex fetch_env evs initial_world
              (invariant_initial emailRegex)) as [Hs _].
  unfold settled, submit_disabled, submit_label in *.
  destruct (submitStatus _); try contradiction; repeat split; discriminate.
Qed.

(** X11. In every reachable state the banner agrees with the status: none
    while idle, the confirmation text on success, the generic error text on
    error, and never both. *)
Theorem banner_matches_status (evs : list UserEvent) :
  let st := store (exec (handle_all emailRegex fetch_env evs) initial_world) in
  (submitStatus st = idle /\ statusMessage st = ""%string /\ status_banners st = [])
  \/ (submitStatus st = success
      /\ status_banners st = [SuccessBanner "Cadastro enviado com sucesso!"])
  \/ (submitStatus st = error
      /\ status_banners st = [ErrorBanner "Erro ao enviar. Tente novamente."]).
Proof.
  cbv zeta.
  destruct (invariant_run emailRegex fetch_env evs initial_world
              (invariant_initial emailRegex)) as [Hs _].
  unfold settled, status_banners in *.
  destruct (submitStatus _); try contradiction; cbn [status_eqb app].
  - left. now repeat split.
  - right. left. now rewrite Hs.
  - right. right. now rewrite Hs.
Qed.

(** X12. In every reachable state the phone input shows a text that the
    mask leaves unchanged: the empty text or an output of the mask. *)
Theorem celular_field_always_masked (evs : list UserEvent) :
  let st := store (exec (handle_all emailRegex fetch_env evs) initial_world) in
  formatPhone (celularValue st) = celularValue st.
Proof.
  cbv zeta.
  now destruct (invariant_run emailRegex fetch_env evs initial_world
                  (invariant_initial emailRegex)) as (_ & Hm & _).
Qed.

(** X13. Every request the component ever dispatches goes to the webhook
    with a payload that went through the rules: nome, sobrenome and email
    pass theirs as sent, and celular is exactly 11 digits. *)
Theorem dispatched_requests_validated (evs : list UserEvent) :
  Forall (validated_request emailRegex)
    (dispatches (trace (exec (handle_all emailRegex fetch_env evs) initial_world))).
Proof.
  pose proof (invariant_run emailRegex fetch_env evs initial_world
                (invariant_initial emailRegex)) as H.
  destruct H as (_ & _ & Hd & _). exact Hd.
Qed.

(** X14. Along every run, success has been written exactly as many times
    as requests were dispatched. *)
Theorem one_dispatch_per_success (evs : list UserEvent) :
  let t := trace (exec (handle_all emailRegex fetch_env evs) initial_world) in
  length (dispatches t) = successes t.
Proof.
  cbv zeta.
  now destruct (invariant_run emailRegex fetch_env evs initial_world
                  (invariant_initial emailRegex)) as (_ & _ & _ & Hn).
Qed.

(** X15. A submit that dispatched its request clears the form, so a second
    submit right after it fails validation: it writes no status and
    dispatches nothing. *)
Theorem second_submit_dispatches_nothing
    (w : World) (data : RegistrationFormData) (promise : NetworkOutcome) :
  resolver emailRegex (values (store w)) = inl data ->
  fetch_env
    (webhook_request
       {| payload_nome := nome data; payload_sobrenome := sobrenome data;
          payload_email := email data;
          payload_celular := filter digit (celular data) |})
  = FetchReturns promise ->
  let w1 := exec (handle emailRegex fetch_env Submit) w in
  let w2 := exec (handle emailRegex fetch_env Submit) w1 in
  length (dispatches (trace w1)) = S (length (dispatches (trace w)))
  /\ trace w2 = trace w1
  /\ submitStatus (store w2) = success
  /\ statusMessage (store w2) = "Cadastro enviado com sucesso!"%string.
Proof.
  intros R Hf. cbv zeta. cbn [handle].
  assert (E1 : exec (handleSubmit emailRegex (onSubmit fetch_env)) w =
               {| store := {| values := no_values; errors := no_errors;
                              submitStatus := success;
                              statusMessage := "Cadastro enviado com sucesso!" |};
                  trace := trace w ++
                    [StatusSet loading;
                     Dispatched
                       (webhook_request
                          {| payload_nome := nome data; payload_sobrenome := sobrenome data;
                             payload_email := email data;
                             payload_celular := filter digit (celular data) |});
                     StatusSet success] |}).
  { rewrite (exec_handleSubmit_valid emailRegex fetch_env w data R), exec_onSubmit.
    cbv zeta. now rewrite Hf. }
  rewrite E1.
  rewrite (exec_handleSubmit_invalid emailRegex fetch_env _ f_nome) by reflexivity.
  cbn [store trace submitStatus statusMessage].
  rewrite dispatches_app, length_app. cbn [dispatches length].
  repeat split. lia.
Qed.

(** X16. Typing in the phone field stores the masked text, shows the phone
    message exactly when fewer than 11 digits were typed, and leaves the
    other fields, their messages and the status alone. *)
Theorem handlePhoneChange_effect (x : jsstring) (w : World) :
  let w' := exec (handlePhoneChange emailRegex x) w in
  celularValue (store w') = formatPhone x
  /\ (e_celular (errors (store w')) = None <-> 11 <= length (filter digit x))
  /\ (forall f, f <> f_celular ->
        get_value f (values (store w')) = get_value f (values (store w))
        /\ get_error f (errors (store w')) = get_error f (errors (store w)))
  /\ submitStatus (store w') = submitStatus (store w)
  /\ trace w' = trace w.
Proof.
  cbv zeta. split; [|split; [|split; [|split]]]; try reflexivity.
  - unfold celularValue. cbn -[formatPhone]. now destruct (formatPhone x).
  - cbn -[formatPhone registrationSchema]. unfold validate_field.
    cbn [get_value v_celular registrationSchema].
    unfold schema_celular, string_schema, first_issue. cbn [run_checks issues_of].
    split.
    + intros H. apply length_formatPhone, celular_regex_length.
      destruct (test celular_regex (formatPhone x)); [reflexivity|discriminate H].
    + intros H. now rewrite (test_formatPhone_complete x H).
  - intros f Hf. destruct f; try contradiction; now split.
Qed.

End ReachableClaims.

Section MessageClaims.

Variable emailRegex : jsstring -> bool.

(** X17. The message a field shows is that of the first failing check in
    the order the schema lists them: an unset field shows Required; a name
    shows the minimum-length message before the maximum-length one and that
    before the letters-only one, so an empty or blank name shows the
    minimum-length message; an address shows the invalid-email message
    before the one about the token. *)
Theorem field_messages (v : FormValues) :
  (forall f, get_value f v = None ->
     validate_field emailRegex f v = Some "Required"%string)
  /\ (forall x, v_nome v = Some x ->
      validate_field emailRegex f_nome v =
        if length (trim x) <? 2 then Some "Nome deve ter pelo menos 2 caracteres"%string
        else if 50 <? length (trim x) then Some "Nome deve ter no máximo 50 caracteres"%string
        else if forallb name_class (trim x) then None
        else Some "Nome deve conter apenas letras"%string)
  /\ (forall x, v_sobrenome v = Some x ->
      validate_field emailRegex f_sobrenome v =
        if length (trim x) <? 2 then Some "Sobrenome deve ter pelo menos 2 caracteres"%string
        else if 50 <? length (trim x) then Some "Sobrenome deve ter no máximo 50 caracteres"%string
        else if forallb name_class (trim x) then None
        else Some "Sobrenome deve conter apenas letras"%string)
  /\ (forall x, v_email v = Some x ->
      validate_field emailRegex f_email v =
        if emailRegex (trim x) then
          if includes (trim x) (lit ".takeat@") then None
          else Some "Apenas emails com .takeat@ são aceitos (ex: arthur.takeat@gmail.com)"%string
        else Some "Email inválido"%string).
Proof.
  unfold validate_field. repeat split.
  - intros f H. rewrite H. now destruct f.
  - intros x H. cbn [get_value]. rewrite H.
    unfold registrationSchema, schema_nome, string_schema, first_issue.
    cbn [run_checks issues_of]. unfold name_regex. rewrite test_one_or_more.
    destruct (trim x) as [|c t] eqn:T; [reflexivity|].
    now destruct (length (c :: t) <? 2), (50 <? length (c :: t)),
      (forallb name_class (c :: t)).
  - intros x H. cbn [get_value]. rewrite H.
    unfold registrationSchema, schema_sobrenome, string_schema, first_issue.
    cbn [run_checks issues_of]. unfold name_regex. rewrite test_one_or_more.
    destruct (trim x) as [|c t] eqn:T; [reflexivity|].
    now destruct (length (c :: t) <? 2), (50 <? length (c :: t)),
      (forallb name_class (c :: t)).
  - intros x H. cbn [get_value]. rewrite H.
    unfold registrationSchema, schema_email, refine, string_schema, first_issue.
    cbn [run_checks issues_of]. fold takeat_token.
    now destruct (emailRegex (trim x)), (includes (trim x) takeat_token).
Qed.

End MessageClaims.

(** ** The further properties at concrete inputs *)

(** X8, at an address with two spaces before and a tab after it. *)
Lemma text_rules_ignore_padding_witness :
  f_email <> f_celular
  /\ forallb white_space (lit "  ") = true
  /\ forallb white_space [9%N] = true
  /\ registrationSchema zod_emailRegex f_email
       (Some (lit "  " ++ lit "ana.takeat@gmail.com" ++ [9%N]))
     = registrationSchema zod_emailRegex f_email (Some (lit "ana.takeat@gmail.com")).
Proof.
  split; [discriminate|]. split; [reflexivity|]. split; [reflexivity|].
  apply (text_rules_ignore_padding zod_emailRegex f_email (lit "  ")
           (lit "ana.takeat@gmail.com") [9%N]);
    [discriminate|reflexivity|reflexivity].
Defined.

(** X9, at a padded first name: it passes, so all its code units are in
    the class of the pattern, the spaces around it included. *)
Lemma name_rule_exactly_witness :
  is_name_field f_nome = true
  /\ (2 <= length (trim (lit " Ana ")) <= 50
      /\ forall c, In c (lit " Ana ") -> name_class c = true).
Proof.
  split; [reflexivity|].
  exact (proj1 (name_rule_exactly zod_emailRegex f_nome (lit " Ana ") eq_refl) eq_refl).
Defined.

(** X15, after typing the valid values: the first submit dispatches, the
    second changes nothing. *)
Lemma second_submit_dispatches_nothing_witness :
  length (dispatches (trace (world_submitted online))) = 1
  /\ trace (exec (handle zod_emailRegex online Submit) (world_submitted online))
     = trace (world_submitted online)
  /\ submitStatus (store (exec (handle zod_emailRegex online Submit)
                            (world_submitted online))) = success.
Proof.
  pose proof (second_submit_dispatches_nothing zod_emailRegex online
                (world_typed online typing_valid)
                {| nome := lit "Arthur"; sobrenome := lit "Takeat";
                   email := lit "arthur.takeat@gmail.com";
                   celular := lit "(11) 98765-4321" |}
                Fulfilled eq_refl eq_refl) as H.
  cbv zeta in H. destruct H as [H1 [H2 [H3 _]]].
  exact (conj H1 (conj H2 H3)).
Defined.
